(** * virtinst: boot-device resolution, cleanup and name generation

    A shallow embedding of [virtinst/generatename.py] and
    [virtinst/Installer.py].  Python callables that talk to the outside
    world (the collision callback, [os.unlink], [vol.delete], the
    filesystem queries) are state-passing functions over an abstract
    world; a Python exception is the [Raise] outcome of a call, and the
    world reached when it was raised is kept, as side effects are in
    Python. *)

From Stdlib Require Import ZArith DecimalString Ascii String Lia.
From Stdlib Require DecimalPos DecimalZ.
From stdpp Require Import base option list strings.

Local Open Scope Z_scope.

(** ** Python values, exceptions and effectful calls *)

Module Py.

(** The Python values the modelled code inspects: [None], booleans,
    integers and strings. Floats and objects of other classes are not
    represented. *)
Inductive pyval : Type :=
  | VNone
  | VBool (b : bool)
  | VInt (z : Z)
  | VStr (s : string).

(** Truth value of an object, as tested by [if x] and [not x]. *)
Definition truthy (v : pyval) : bool :=
  match v with
  | VNone => false
  | VBool b => b
  | VInt z => negb (z =? 0)
  | VStr s => negb (String.eqb s "")
  end.

(** [x is None]. *)
Definition is_none (v : pyval) : bool :=
  match v with VNone => true | _ => false end.

(** [a == b]: [bool] is a subclass of [int], so [True == 1] and
    [False == 0]. *)
Definition py_eq (a b : pyval) : bool :=
  match a, b with
  | VNone, VNone => true
  | VBool x, VBool y => Bool.eqb x y
  | VBool x, VInt z | VInt z, VBool x => z =? (if x then 1 else 0)
  | VInt x, VInt y => x =? y
  | VStr x, VStr y => String.eqb x y
  | _, _ => false
  end.

(** [x in l] for a list: some element equals [x]. *)
Definition py_in (x : pyval) (l : list pyval) : bool :=
  existsb (py_eq x) l.

(** Exception classes: the ones the code names, and any other class. *)
Inductive pyexn : Type :=
  | libvirtError (msg : string)
  | ValueError (msg : string)
  | NotImplementedError (msg : string)
  | OSError (msg : string)
  | OtherError (cls msg : string).

(** Outcome of a call: a returned value or a raised exception. *)
Inductive result (A : Type) : Type :=
  | Ok (a : A)
  | Raise (e : pyexn).
Arguments Ok {A} a.
Arguments Raise {A} e.

(** A call that reads and changes the world [W]. *)
Definition M (W A : Type) : Type := W -> result A * W.

Definition ret {W A} (a : A) : M W A := fun w => (Ok a, w).

Definition raise {W A} (e : pyexn) : M W A := fun w => (Raise e, w).

Definition bind {W A B} (m : M W A) (k : A -> M W B) : M W B :=
  fun w =>
    match m w with
    | (Ok a, w') => k a w'
    | (Raise e, w') => (Raise e, w')
    end.

(** Sequencing of calls that touch no world. *)
Definition result_bind {A B} (r : result A) (k : A -> result B) : result B :=
  match r with
  | Ok a => k a
  | Raise e => Raise e
  end.

(** A call on the world, run on the world paired with something else (a
    Python object, a log), which it leaves alone. *)
Definition on_world {W A L} (m : M W A) : M (W * L) A :=
  fun wl => let '(r, w') := m wl.1 in (r, (w', wl.2)).

(** [try: m  except libvirt.libvirtError: h]. *)
Definition except_libvirtError {W A} (m : M W A) (h : M W A) : M W A :=
  fun w =>
    match m w with
    | (Raise (libvirtError _), w') => h w'
    | other => other
    end.

(** [for x in l: body(x)]: the first exception ends the loop. *)
Fixpoint for_each {W A} (body : A -> M W unit) (l : list A) : M W unit :=
  match l with
  | [] => ret tt
  | x :: rest => bind (body x) (fun _ => for_each body rest)
  end.

(** A callable wrapped so that each call, tagged by [tag], and its
    outcome are appended to a log kept beside the world; the wrapped
    callable behaves as the original on the world. *)
Definition traced_as {W A B C} (tag : A -> C) (f : A -> M W B)
    : A -> M (W * list (C * result B)) B :=
  fun a wl =>
    let '(r, w') := f a wl.1 in (r, (w', wl.2 ++ [(tag a, r)])).

(** [isinstance(e, libvirt.libvirtError)]. *)
Definition is_libvirtError (e : pyexn) : bool :=
  match e with libvirtError _ => true | _ => false end.

Definition traced {W A B} (f : A -> M W B)
    : A -> M (W * list (A * result B)) B :=
  traced_as (fun a => a) f.

End Py.

Import Py.

Declare Scope py_scope.
Delimit Scope py_scope with py.
Notation "x <- m ;; k" := (bind m (fun x => k))
  (at level 100, m at next level, right associativity) : py_scope.

(** ** virtinst/generatename.py *)

Module generatename.

Local Open Scope py_scope.

(** [libvirt_collision(collision_cb, val)]. *)
Definition libvirt_collision {W} (collision_cb : string -> M W pyval)
    (val : option string) : M W bool :=
  match val with
  | None => ret false
  | Some v =>
      except_libvirtError
        (r <- collision_cb v ;; ret (negb (is_none r)))
        (ret false)
  end.

(** ["%d" % i]. *)
Definition fmt_d (i : Z) : string := NilZero.string_of_int (Z.to_int i).

(** [list(range(lo, hi))]. *)
Fixpoint range_from (lo : Z) (n : nat) : list Z :=
  match n with
  | O => []
  | S n' => lo :: range_from (lo + 1) n'
  end.

Definition py_range (lo hi : Z) : list Z := range_from lo (Z.to_nat (hi - lo)).

Section generate_name.
Context {W : Type}.
Variables (base : string) (collision_cb : string -> M W pyval)
          (suffix : string) (lib_collision : bool) (start_num : Z)
          (sep : string) (force_num : bool)
          (collidelist : option (list string)).

(** [collidelist = collidelist or []]. *)
Definition collidelist' : list string := default [] collidelist.

(** The closure [collide(n)]; it reads the enclosing [tryname]. *)
Definition collide (tryname n : string) : M W pyval :=
  if bool_decide (n ∈ collidelist') then ret (VBool true)
  else if lib_collision then
    b <- libvirt_collision collision_cb (Some tryname) ;; ret (VBool b)
  else collision_cb tryname.

(** The name built in one iteration of the loop for the entry [i]. *)
Definition tryname_of (i : option Z) : string :=
  let tryname := base in
  let tryname :=
    match i with
    | Some n => tryname +:+ (sep +:+ fmt_d n)
    | None => tryname
    end in
  tryname +:+ suffix.

Definition numrange : list (option Z) :=
  let numrange := Some <$> py_range start_num (start_num + 100000) in
  if negb force_num then None :: numrange else numrange.

(** [for i in numrange: ...] followed by the final [raise]. *)
Fixpoint generate_loop (l : list (option Z)) : M W string :=
  match l with
  | [] => raise (ValueError "Name generation range exceeded.")
  | i :: rest =>
      let tryname := tryname_of i in
      c <- collide tryname tryname ;;
      if negb (truthy c) then ret tryname else generate_loop rest
  end.

Definition generate_name : M W string := generate_loop numrange.

(** The names the loop builds, in the order it builds them. *)
Definition candidates : list string := tryname_of <$> numrange.

End generate_name.

(** What [collide] makes of the outcome [o] of a call of the callback,
    for a name that is not in [collidelist]: under [lib_collision] a
    result other than [None] is a collision, [None] and a [libvirtError]
    are none, and another exception is passed on; otherwise the outcome
    is taken as it is. *)
Definition collide_outcome (lib_collision : bool) (o : result pyval)
    : result pyval :=
  if lib_collision then
    match o with
    | Ok r => Ok (VBool (negb (is_none r)))
    | Raise (libvirtError _) => Ok (VBool false)
    | Raise e => Raise e
    end
  else o.

(** The callback's outcome [o] makes [collide] report a collision. *)
Definition collision_reported (lib_collision : bool) (o : result pyval)
    : bool :=
  match collide_outcome lib_collision o with
  | Ok v => truthy v
  | Raise _ => false
  end.

(** The callback's outcome [o] makes [collide] report no collision. *)
Definition no_collision_reported (lib_collision : bool) (o : result pyval)
    : bool :=
  match collide_outcome lib_collision o with
  | Ok v => negb (truthy v)
  | Raise _ => false
  end.

(** A run of the loop over the names [cs], as seen from outside: its
    result and the calls of the callback with their outcomes. *)
Inductive loop_run (lib_collision : bool) (cl : list string)
    : list string -> result string -> list (string * result pyval) -> Prop :=
  | run_exhausted :
      loop_run lib_collision cl []
        (Raise (ValueError "Name generation range exceeded.")) []
  | run_listed c cs r tr :
      c ∈ cl ->
      loop_run lib_collision cl cs r tr ->
      loop_run lib_collision cl (c :: cs) r tr
  | run_collides c cs o r tr :
      c ∉ cl ->
      collision_reported lib_collision o = true ->
      loop_run lib_collision cl cs r tr ->
      loop_run lib_collision cl (c :: cs) r ((c, o) :: tr)
  | run_free c cs o :
      c ∉ cl ->
      no_collision_reported lib_collision o = true ->
      loop_run lib_collision cl (c :: cs) (Ok c) [(c, o)]
  | run_raised c cs o e :
      c ∉ cl ->
      collide_outcome lib_collision o = Raise e ->
      loop_run lib_collision cl (c :: cs) (Raise e) [(c, o)].

End generatename.

(** ** virtinst/Installer.py *)

Module Installer.

Local Open Scope py_scope.

Definition XEN_SCRATCH : string := "/var/lib/xen".
Definition LIBVIRT_SCRATCH : string := "/var/lib/libvirt/boot".

(** Modelled from the spec: the [BOOT_DEVICE_*] constants of
    [osxml.OSXML], which [Installer.py] reads through [self.bootconfig];
    the spec's BootDeviceKind is the closed set network, harddisk, cdrom,
    floppy, and Python's [None] is the "none" sentinel. *)
Inductive BootDevice : Type :=
  | BOOT_DEVICE_HARDDISK
  | BOOT_DEVICE_CDROM
  | BOOT_DEVICE_FLOPPY
  | BOOT_DEVICE_NETWORK.

#[global] Instance BootDevice_eq_dec : EqDecision BootDevice.
Proof. solve_decision. Defined.

(** Modelled from the spec: the [DEVICE_*] constants of [VirtualDisk];
    the spec's GuestDiskDevice kind is disk, cdrom, floppy or other. *)
Inductive DiskDevice : Type :=
  | DEVICE_DISK
  | DEVICE_CDROM
  | DEVICE_FLOPPY
  | DEVICE_OTHER (name : string).

#[global] Instance DiskDevice_eq_dec : EqDecision DiskDevice.
Proof. solve_decision. Defined.

(** Modelled from the spec: the fields of a [VirtualDisk] the installer
    reads and writes. *)
Record VirtualDisk : Type := {
  path : option string;
  device : DiskDevice;
  read_only : bool
}.

(** Modelled from the spec: a [Guest], of which the installer reads only
    [guest.get_devices("disk")], the disk devices in their order. *)
Record Guest : Type := { disk_devices : list VirtualDisk }.

Definition get_devices_disk (guest : Guest) : list VirtualDisk :=
  disk_devices guest.

(** Modelled from the spec: the boot configuration [osxml.OSXML]. An
    unset [bootorder] is the empty list; [copy()] yields an equal,
    unaliased value, which a record already is. *)
Record OSXML : Type := {
  type : option string;
  os_type : option string;
  machine : option string;
  arch : option string;
  loader : option string;
  init : option string;
  bootorder : list BootDevice;
  kernel : option string;
  initrd : option string;
  kernel_args : option string
}.

Definition copy (b : OSXML) : OSXML := b.

Definition set_bootorder (b : OSXML) (v : list BootDevice) : OSXML :=
  {| type := type b; os_type := os_type b; machine := machine b;
     arch := arch b; loader := loader b; init := init b;
     bootorder := v;
     kernel := kernel b; initrd := initrd b; kernel_args := kernel_args b |}.

Definition set_kernel (b : OSXML) (v : option string) : OSXML :=
  {| type := type b; os_type := os_type b; machine := machine b;
     arch := arch b; loader := loader b; init := init b;
     bootorder := bootorder b;
     kernel := v; initrd := initrd b; kernel_args := kernel_args b |}.

Definition set_initrd (b : OSXML) (v : option string) : OSXML :=
  {| type := type b; os_type := os_type b; machine := machine b;
     arch := arch b; loader := loader b; init := init b;
     bootorder := bootorder b;
     kernel := kernel b; initrd := v; kernel_args := kernel_args b |}.

Definition set_kernel_args (b : OSXML) (v : option string) : OSXML :=
  {| type := type b; os_type := os_type b; machine := machine b;
     arch := arch b; loader := loader b; init := init b;
     bootorder := bootorder b;
     kernel := kernel b; initrd := initrd b; kernel_args := v |}.

(** Some device of the list is of kind disk. *)
Definition has_disk (disks : list VirtualDisk) : bool :=
  existsb (fun d => bool_decide (device d = DEVICE_DISK)) disks.

(** Truth value of an attribute that holds [None] or a string. *)
Definition truthy_str (o : option string) : bool :=
  match o with
  | Some s => truthy (VStr s)
  | None => false
  end.

(** The value a field ends with when [_get_xml_config] applies an
    install-phase value to it: the install value, unless that is [None]
    or empty. *)
Definition overridden (override current : option string) : option string :=
  if truthy_str override then override else current.

(** The connection, of which the installer asks [is_session_uri()]. *)
Record Connection : Type := { is_session_uri : bool }.

(** What a subclass of [Installer] overrides. *)
Record InstallerClass : Type := {
  _has_install_phase : bool;
  _get_bootdev : bool -> Guest -> result (option BootDevice)
}.

(** The instance attributes set by [Installer.__init__]. *)
Record Installer (Vol : Type) : Type := {
  cls : InstallerClass;
  conn : Connection;
  _location : option string;
  _cdrom : pyval;
  _scratchdir : option string;
  initrd_injections : list string;
  bootconfig : OSXML;
  _install_kernel : option string;
  _install_initrd : option string;
  _install_args : option string;
  install_devices : list VirtualDisk;
  _tmpfiles : list string;
  _tmpvols : list Vol
}.
Arguments cls {Vol} _.
Arguments conn {Vol} _.
Arguments _location {Vol} _.
Arguments _cdrom {Vol} _.
Arguments _scratchdir {Vol} _.
Arguments initrd_injections {Vol} _.
Arguments bootconfig {Vol} _.
Arguments _install_kernel {Vol} _.
Arguments _install_initrd {Vol} _.
Arguments _install_args {Vol} _.
Arguments install_devices {Vol} _.
Arguments _tmpfiles {Vol} _.
Arguments _tmpvols {Vol} _.

(** The operating system and libvirt calls the installer makes, over a
    world [W]; [Vol] is a storage-volume handle. *)
Class Host (W Vol : Type) : Type := {
  platform_system : W -> string;
  os_path_exists : string -> W -> bool;
  os_access_W_OK : string -> W -> bool;
  os_path_expanduser : string -> W -> string;
  os_makedirs : string -> Z -> M W unit;
  os_unlink : string -> M W unit;
  vol_name : Vol -> M W string;
  vol_delete : Vol -> Z -> M W unit
}.

(** *** The installer classes *)

(** [Installer]: [_get_bootdev] must be overridden. *)
Definition Installer_class : InstallerClass :=
  {| _has_install_phase := true;
     _get_bootdev := fun isinstall guest =>
       Raise (NotImplementedError "Must be implemented in subclass") |}.

Definition ContainerInstaller : InstallerClass :=
  {| _has_install_phase := false;
     _get_bootdev := fun isinstall guest => Ok (Some BOOT_DEVICE_HARDDISK) |}.

Definition PXEInstaller : InstallerClass :=
  {| _has_install_phase := true;
     _get_bootdev := fun isinstall guest =>
       let bootdev := BOOT_DEVICE_NETWORK in
       let bootdev :=
         if negb isinstall &&
            negb (bool_decide
                    (filter (fun d => device d = DEVICE_DISK)
                            (get_devices_disk guest) = []))
         then BOOT_DEVICE_HARDDISK
         else bootdev in
       Ok (Some bootdev) |}.

Definition LiveCDInstaller : InstallerClass :=
  {| _has_install_phase := false;
     _get_bootdev := fun isinstall guest => Ok (Some BOOT_DEVICE_CDROM) |}.

(** [ImportInstaller._disk_to_bootdev]. *)
Definition _disk_to_bootdev (disk : VirtualDisk) : BootDevice :=
  if decide (device disk = DEVICE_DISK) then BOOT_DEVICE_HARDDISK
  else if decide (device disk = DEVICE_CDROM) then BOOT_DEVICE_CDROM
  else if decide (device disk = DEVICE_FLOPPY) then BOOT_DEVICE_FLOPPY
  else BOOT_DEVICE_HARDDISK.

Definition ImportInstaller : InstallerClass :=
  {| _has_install_phase := false;
     _get_bootdev := fun isinstall guest =>
       let disks := get_devices_disk guest in
       match disks with
       | [] => Ok (Some BOOT_DEVICE_HARDDISK)
       | disk0 :: _ => Ok (Some (_disk_to_bootdev disk0))
       end |}.

(** *** Methods of [Installer] *)

Section methods.
Context {W Vol : Type} `{Host W Vol}.

Definition has_install_phase (self : Installer Vol) : bool :=
  _has_install_phase (cls self).

(** [self._cdrom = v]. *)
Definition set__cdrom (self : Installer Vol) (v : pyval) : Installer Vol :=
  {| cls := cls self; conn := conn self; _location := _location self;
     _cdrom := v;
     _scratchdir := _scratchdir self;
     initrd_injections := initrd_injections self;
     bootconfig := bootconfig self;
     _install_kernel := _install_kernel self;
     _install_initrd := _install_initrd self;
     _install_args := _install_args self;
     install_devices := install_devices self;
     _tmpfiles := _tmpfiles self; _tmpvols := _tmpvols self |}.

(** [self._tmpvols = v]. *)
Definition set__tmpvols (self : Installer Vol) (v : list Vol)
    : Installer Vol :=
  {| cls := cls self; conn := conn self; _location := _location self;
     _cdrom := _cdrom self;
     _scratchdir := _scratchdir self;
     initrd_injections := initrd_injections self;
     bootconfig := bootconfig self;
     _install_kernel := _install_kernel self;
     _install_initrd := _install_initrd self;
     _install_args := _install_args self;
     install_devices := install_devices self;
     _tmpfiles := _tmpfiles self; _tmpvols := v |}.

(** [self._tmpfiles = v]. *)
Definition set__tmpfiles (self : Installer Vol) (v : list string)
    : Installer Vol :=
  {| cls := cls self; conn := conn self; _location := _location self;
     _cdrom := _cdrom self;
     _scratchdir := _scratchdir self;
     initrd_injections := initrd_injections self;
     bootconfig := bootconfig self;
     _install_kernel := _install_kernel self;
     _install_initrd := _install_initrd self;
     _install_args := _install_args self;
     install_devices := install_devices self;
     _tmpfiles := v; _tmpvols := _tmpvols self |}.

(** [self.install_devices = v]. *)
Definition set_install_devices (self : Installer Vol)
    (v : list VirtualDisk) : Installer Vol :=
  {| cls := cls self; conn := conn self; _location := _location self;
     _cdrom := _cdrom self;
     _scratchdir := _scratchdir self;
     initrd_injections := initrd_injections self;
     bootconfig := bootconfig self;
     _install_kernel := _install_kernel self;
     _install_initrd := _install_initrd self;
     _install_args := _install_args self;
     install_devices := v;
     _tmpfiles := _tmpfiles self; _tmpvols := _tmpvols self |}.

Definition get_cdrom (self : Installer Vol) : pyval := _cdrom self.

(** [set_cdrom(self, enable)], on the object alone. *)
Definition set_cdrom (enable : pyval) : M (Installer Vol) unit :=
  fun self =>
    if negb (py_in enable [VBool true; VBool false])
    then (Raise (ValueError "Guest.cdrom must be a boolean type"), self)
    else (Ok tt, set__cdrom self enable).

(** [_get_system_scratchdir(self)]. *)
Definition _get_system_scratchdir (self : Installer Vol) (w : W) : string :=
  if String.eqb (platform_system w) "SunOS" then "/var/tmp"
  else if bool_decide (type (bootconfig self) = Some "test") then "/tmp"
  else if bool_decide (type (bootconfig self) = Some "xen") then XEN_SCRATCH
  else LIBVIRT_SCRATCH.

(** The test [not scratch or not os.path.exists(scratch) or not
    os.access(scratch, os.W_OK)], with its short-circuit [or]. *)
Definition scratch_unusable (scratch : option string) (w : W) : bool :=
  match scratch with
  | Some s =>
      negb (truthy (VStr s)) || negb (os_path_exists s w)
      || negb (os_access_W_OK s w)
  | None => true
  end.

(** [_get_scratchdir(self)]; the mode [0751] is octal. *)
Definition _get_scratchdir (self : Installer Vol) : M W string :=
  fun w =>
    let scratch : option string := None in
    let scratch :=
      if negb (is_session_uri (conn self))
      then Some (_get_system_scratchdir self w)
      else scratch in
    if scratch_unusable scratch w then
      let scratch := os_path_expanduser "~/.virtinst/boot" w in
      if negb (os_path_exists scratch w) then
        (_ <- os_makedirs scratch 489 ;; ret scratch) w
      else (Ok scratch, w)
    else (Ok (default ""%string scratch), w).

(** The loop of [_build_boot_order] over the guest's disks, left by
    [break] at the first device of kind disk. *)
Fixpoint boot_order_scan (bootorder : list BootDevice)
    (disks : list VirtualDisk) : list BootDevice :=
  match disks with
  | [] => bootorder
  | disk :: rest =>
      if decide (device disk = DEVICE_DISK) then
        let bootdev := BOOT_DEVICE_HARDDISK in
        if bool_decide (bootdev ∈ bootorder) then bootorder
        else bootorder ++ [bootdev]
      else boot_order_scan bootorder rest
  end.

(** [_build_boot_order(self, isinstall, guest)]. *)
Definition _build_boot_order (self : Installer Vol) (isinstall : bool)
    (guest : Guest) : result (list BootDevice) :=
  result_bind (_get_bootdev (cls self) isinstall guest) (fun bootdev =>
    match bootdev with
    | None => Ok []
    | Some bootdev =>
        let bootorder := [bootdev] in
        Ok (boot_order_scan bootorder (get_devices_disk guest))
    end).

(** [_get_xml_config(self, guest, isinstall)]. The serializer
    [bootconfig._get_osblob_helper] is outside this file and is the
    parameter [_get_osblob_helper]; a bare [return] yields [None]. *)
Definition _get_xml_config {X : Type}
    (_get_osblob_helper : Guest -> bool -> OSXML -> OSXML -> X)
    (self : Installer Vol) (guest : Guest) (isinstall : bool)
    : result (option X) :=
  if isinstall && negb (has_install_phase self) then Ok None
  else
    let bc := copy (bootconfig self) in
    result_bind (_build_boot_order self isinstall guest) (fun bootorder' =>
      let bc :=
        if bool_decide (bootorder bc = []) then set_bootorder bc bootorder'
        else bc in
      let bc :=
        if isinstall then
          let bc := copy bc in
          let bc :=
            if truthy_str (_install_kernel self)
            then set_kernel bc (_install_kernel self) else bc in
          let bc :=
            if truthy_str (_install_initrd self)
            then set_initrd bc (_install_initrd self) else bc in
          if truthy_str (_install_args self)
          then set_kernel_args bc (_install_args self) else bc
        else bc in
      Ok (Some (_get_osblob_helper guest isinstall bc (bootconfig self)))).

(** [cleanup(self)], on the object and the world. The [logging.debug]
    calls leave no trace in the model, but [vol.name()], evaluated for
    the second of them, is a libvirt call. *)
Definition cleanup : M (W * Installer Vol) unit :=
  fun ws =>
    let self := ws.2 in
    (_ <- on_world (for_each os_unlink (_tmpfiles self)) ;;
     _ <- on_world
            (for_each (fun vol => _ <- vol_name vol ;; vol_delete vol 0)
                      (_tmpvols self)) ;;
     fun ws' =>
       let self := set__tmpvols ws'.2 [] in
       let self := set__tmpfiles self [] in
       let self := set_install_devices self [] in
       (Ok tt, (ws'.1, self))) ws.

(** The object after the three assignments that end [cleanup]. *)
Definition cleared (self : Installer Vol) : Installer Vol :=
  set_install_devices (set__tmpfiles (set__tmpvols self []) []) [].

(** The entries [cleanup] is to delete, in the order of its two loops. *)
Definition tracked (self : Installer Vol) : list (string + Vol) :=
  (inl <$> _tmpfiles self) ++ (inr <$> _tmpvols self).

End methods.

(** *** The cached scratch directory and [prepare] *)

Section more_methods.
Context {W Vol Meter : Type} `{Host W Vol}.

(** [self._scratchdir = v]. *)
Definition set__scratchdir (self : Installer Vol) (v : option string)
    : Installer Vol :=
  {| cls := cls self; conn := conn self; _location := _location self;
     _cdrom := _cdrom self;
     _scratchdir := v;
     initrd_injections := initrd_injections self;
     bootconfig := bootconfig self;
     _install_kernel := _install_kernel self;
     _install_initrd := _install_initrd self;
     _install_args := _install_args self;
     install_devices := install_devices self;
     _tmpfiles := _tmpfiles self; _tmpvols := _tmpvols self |}.

(** [Installer.scratchdir_required(self)]; no class of this file
    overrides it. *)
Definition scratchdir_required (self : Installer Vol) : bool := false.

(** [get_scratchdir(self)], on the world and the object. The method
    [scratchdir_required] is overridden by subclasses outside this file
    and is the parameter [required]; the [logging.debug] call leaves no
    trace in the model. *)
Definition get_scratchdir (required : Installer Vol -> bool)
    : M (W * Installer Vol) (option string) :=
  fun ws =>
    let self := ws.2 in
    if negb (required self) then (Ok None, ws)
    else if negb (truthy_str (_scratchdir self)) then
      match _get_scratchdir self ws.1 with
      | (Ok scratch, w') =>
          let self := set__scratchdir self (Some scratch) in
          (Ok (_scratchdir self), (w', self))
      | (Raise e, w') => (Raise e, (w', self))
      end
    else (Ok (_scratchdir self), ws).

(** [Installer._prepare(self, guest, meter)]: nothing to do. *)
Definition _prepare (guest : Guest) (meter : Meter)
    : M (W * Installer Vol) unit :=
  ret tt.

(** [prepare(self, guest, meter)]; the subclass hook [_prepare] is the
    parameter [hook]. *)
Definition prepare
    (hook : Guest -> Meter -> M (W * Installer Vol) unit)
    (guest : Guest) (meter : Meter) : M (W * Installer Vol) unit :=
  _ <- cleanup ;; hook guest meter.

End more_methods.

(** The host with its two delete calls traced: [os.unlink(f)] is logged
    as [inl f], [vol.delete(0)] as [inr vol]; the other calls run on the
    world and leave the log alone. *)
Definition traced_host {W Vol} (H : Host W Vol)
    : Host (W * list ((string + Vol) * result unit)) Vol :=
  {| platform_system wl := platform_system wl.1;
     os_path_exists p wl := os_path_exists p wl.1;
     os_access_W_OK p wl := os_access_W_OK p wl.1;
     os_path_expanduser p wl := os_path_expanduser p wl.1;
     os_makedirs p mode := on_world (os_makedirs p mode);
     os_unlink := traced_as inl os_unlink;
     vol_name vol := on_world (vol_name vol);
     vol_delete vol flags :=
       traced_as inr (fun vol => vol_delete vol flags) vol |}.

(** The entries that were deleted, as they appear in the log. *)
Definition deleted {Vol} (cs : list (string + Vol))
    : list ((string + Vol) * result unit) :=
  (fun c => (c, Ok tt)) <$> cs.

(** A run of the two delete loops, as seen from outside: the result and
    the delete calls made, with their outcomes. A loop ends at the first
    call that raises, be it the delete or the [vol.name()] before it. *)
Inductive deletes_run {Vol : Type}
    : list (string + Vol) -> result unit
      -> list ((string + Vol) * result unit) -> Prop :=
  | deletes_done : deletes_run [] (Ok tt) []
  | deletes_next c cs r tr :
      deletes_run cs r tr -> deletes_run (c :: cs) r ((c, Ok tt) :: tr)
  | deletes_failed c cs e :
      deletes_run (c :: cs) (Raise e) [(c, Raise e)]
  | deletes_name_failed vol cs e :
      deletes_run (inr vol :: cs) (Raise e) [].

End Installer.

(** ** Concrete callbacks and hosts *)

Module Examples.

(** A boolean callback that reports a collision for every name. *)
Definition always_collides : string -> M unit pyval :=
  fun _ w => (Ok (VBool true), w).

(** A libvirt-style lookup: the names in [taken] yield an object, any
    other name raises [libvirtError]. *)
Definition lookup_in (taken : list string) : string -> M unit pyval :=
  fun n w =>
    (if bool_decide (n ∈ taken) then Ok (VStr "<virDomain>")
     else Raise (libvirtError "Domain not found"), w).

(** A lookup whose connection is broken: every call raises an exception
    that is not a [libvirtError]. *)
Definition broken_lookup : string -> M unit pyval :=
  fun _ w => (Raise (OtherError "IOError" "connection reset"), w).

(** A lookup on a connection that has been closed: every call raises a
    [libvirtError], but not the one that says the name is free
    ([VIR_ERR_INTERNAL_ERROR], where a missing domain gives
    [VIR_ERR_NO_DOMAIN]). *)
Definition unreachable_lookup : string -> M unit pyval :=
  fun _ w =>
    (Raise (libvirtError "internal error: client socket is closed"), w).

(** A small host: the regular files, the directories with their
    writability, the storage volumes, the platform and the home
    directory. Its [os_makedirs] records the directory asked for; the
    intermediate directories [os.makedirs] would create are not
    represented. *)
Record World : Type := {
  files : list string;
  dirs : list (string * bool);
  volumes : list string;
  system : string;
  home : string
}.

Definition with_files (w : World) (v : list string) : World :=
  {| files := v; dirs := dirs w; volumes := volumes w;
     system := system w; home := home w |}.

Definition with_dirs (w : World) (v : list (string * bool)) : World :=
  {| files := files w; dirs := v; volumes := volumes w;
     system := system w; home := home w |}.

Definition with_volumes (w : World) (v : list string) : World :=
  {| files := files w; dirs := dirs w; volumes := v;
     system := system w; home := home w |}.

Definition expanduser (p : string) (w : World) : string :=
  match p with
  | String "~"%char rest => home w +:+ rest
  | _ => p
  end.

Definition remove_one (x : string) (l : list string) : list string :=
  filter (fun y => y <> x) l.

#[global] Instance World_host : Installer.Host World string :=
  {| Installer.platform_system w := system w;
     Installer.os_path_exists p w :=
       bool_decide (p ∈ files w) || bool_decide (p ∈ (dirs w).*1);
     Installer.os_access_W_OK p w := bool_decide ((p, true) ∈ dirs w);
     Installer.os_path_expanduser := expanduser;
     Installer.os_makedirs p mode w :=
       if bool_decide (p ∈ files w) || bool_decide (p ∈ (dirs w).*1)
       then (Raise (OSError "File exists"), w)
       else (Ok tt, with_dirs w (dirs w ++ [(p, true)]));
     Installer.os_unlink p w :=
       if bool_decide (p ∈ files w)
       then (Ok tt, with_files w (remove_one p (files w)))
       else (Raise (OSError "No such file or directory"), w);
     Installer.vol_name vol w :=
       if bool_decide (vol ∈ volumes w) then (Ok vol, w)
       else (Raise (libvirtError "Storage volume not found"), w);
     Installer.vol_delete vol flags w :=
       if bool_decide (vol ∈ volumes w)
       then (Ok tt, with_volumes w (remove_one vol (volumes w)))
       else (Raise (libvirtError "Storage volume not found"), w) |}.

Definition kvm_bootconfig : Installer.OSXML :=
  {| Installer.type := Some "kvm"; Installer.os_type := Some "hvm";
     Installer.machine := None; Installer.arch := Some "x86_64";
     Installer.loader := None; Installer.init := None;
     Installer.bootorder := [];
     Installer.kernel := None; Installer.initrd := None;
     Installer.kernel_args := None |}.

(** A freshly constructed installer of class [c] that tracks the temp
    files [tmpfiles] and the temp volumes [tmpvols]. *)
Definition new_installer (c : Installer.InstallerClass)
    (bc : Installer.OSXML) (session : bool)
    (tmpfiles tmpvols : list string) : Installer.Installer string :=
  {| Installer.cls := c;
     Installer.conn := {| Installer.is_session_uri := session |};
     Installer._location := None;
     Installer._cdrom := VBool false;
     Installer._scratchdir := None;
     Installer.initrd_injections := [];
     Installer.bootconfig := bc;
     Installer._install_kernel := None;
     Installer._install_initrd := None;
     Installer._install_args := None;
     Installer.install_devices := [];
     Installer._tmpfiles := tmpfiles;
     Installer._tmpvols := tmpvols |}.

(** A configuration whose boot order the user has set. *)
Definition cdrom_first_bootconfig : Installer.OSXML :=
  Installer.set_bootorder kvm_bootconfig
    [Installer.BOOT_DEVICE_CDROM; Installer.BOOT_DEVICE_HARDDISK].

Definition disk_of (d : Installer.DiskDevice) : Installer.VirtualDisk :=
  {| Installer.path := None; Installer.device := d;
     Installer.read_only := false |}.

Definition guest_with (ds : list Installer.DiskDevice) : Installer.Guest :=
  {| Installer.disk_devices := disk_of <$> ds |}.

(** A Linux host on which only [/tmp/b.img] of the tracked files is left. *)
Definition linux_host : World :=
  {| files := ["/tmp/b.img"];
     dirs := [("/var/lib/libvirt/boot", false); ("/tmp", true)];
     volumes := ["vol0"];
     system := "Linux"; home := "/home/user" |}.

(** A PXE installer that carries a kernel and kernel arguments for the
    install phase, but no initrd. *)
Definition kernel_installer : Installer.Installer string :=
  {| Installer.cls := Installer.PXEInstaller;
     Installer.conn := {| Installer.is_session_uri := false |};
     Installer._location := None;
     Installer._cdrom := VBool false;
     Installer._scratchdir := None;
     Installer.initrd_injections := [];
     Installer.bootconfig := cdrom_first_bootconfig;
     Installer._install_kernel := Some "/var/lib/libvirt/boot/vmlinuz";
     Installer._install_initrd := Some "";
     Installer._install_args := Some "ks=http://example.org/ks.cfg";
     Installer.install_devices := [];
     Installer._tmpfiles := [];
     Installer._tmpvols := [] |}.

End Examples.

(** * Properties of the name generator *)

Section collide_facts.
Import generatename.
Context {W : Type}.
Implicit Types (cb : string -> M W pyval) (w : W).

Lemma collide_listed cb lib cl t n w :
  n ∈ collidelist' cl ->
  collide cb lib cl t n w = (Ok (VBool true), w).
Proof.
  intros Hin. unfold collide. rewrite bool_decide_eq_true_2 by done.
  reflexivity.
Qed.

Lemma collide_probed cb lib cl t n w :
  n ∉ collidelist' cl ->
  collide cb lib cl t n w = (collide_outcome lib (cb t w).1, (cb t w).2).
Proof.
  intros Hin. unfold collide. rewrite bool_decide_eq_false_2 by done.
  unfold collide_outcome, libvirt_collision, except_libvirtError, bind, ret.
  destruct lib; destruct (cb t w) as [[v|e] w']; simpl; try reflexivity.
  destruct e; reflexivity.
Qed.

End collide_facts.

Section generate_name_facts.
Import generatename.
Context {W : Type}.
Implicit Types (cb : string -> M W pyval) (w : W)
  (log : list (string * result pyval)).

Lemma traced_run cb n w log :
  traced cb n (w, log) = ((cb n w).1, ((cb n w).2, log ++ [(n, (cb n w).1)])).
Proof.
  unfold traced, traced_as. simpl. destruct (cb n w); reflexivity.
Qed.

(** Every run of the loop with a traced callback is a [loop_run], and
    the outcomes in the trace are outcomes of the callback. *)
Lemma generate_loop_run cb base suffix lib sep cl l :
  forall w log r w' log',
    generate_loop base (traced cb) suffix lib sep cl l (w, log)
      = (r, (w', log')) ->
    exists tr,
      log' = log ++ tr /\
      loop_run lib (collidelist' cl) (tryname_of base suffix sep <$> l) r tr /\
      Forall (fun co => exists w0, (cb co.1 w0).1 = co.2) tr.
Proof.
  induction l as [|i rest IH]; intros w log r w' log' Hrun.
  - inversion Hrun; subst. exists []. rewrite app_nil_r.
    repeat split; constructor.
  - cbn [generate_loop] in Hrun. unfold bind in Hrun.
    set (c := tryname_of base suffix sep i) in *.
    rewrite fmap_cons. fold c.
    destruct (decide (c ∈ collidelist' cl)) as [Hin|Hin].
    + rewrite collide_listed in Hrun by done. simpl in Hrun.
      destruct (IH _ _ _ _ _ Hrun) as (tr & -> & Hr & Hcb).
      exists tr. repeat split; [by apply run_listed | done].
    + rewrite collide_probed in Hrun by done.
      rewrite traced_run in Hrun. simpl in Hrun.
      assert (Hentry : exists w0, (cb c w0).1 = (cb c w).1) by eauto.
      destruct (collide_outcome lib (cb c w).1) as [v|e] eqn:Hout.
      * destruct (truthy v) eqn:Hv; simpl in Hrun.
        -- destruct (IH _ _ _ _ _ Hrun) as (tr & -> & Hr & Hcb).
           exists ((c, (cb c w).1) :: tr).
           rewrite <- app_assoc. repeat split; [|by constructor].
           apply run_collides; [done | | done].
           unfold collision_reported. by rewrite Hout.
        -- inversion Hrun; subst. exists [(c, (cb c w).1)].
           repeat split; [|by repeat constructor].
           apply run_free; [done|].
           unfold no_collision_reported. by rewrite Hout, Hv.
      * inversion Hrun; subst. exists [(c, (cb c w).1)].
        repeat split; [|by repeat constructor].
        by apply run_raised.
Qed.

(** Tracing the callback changes neither the result of the loop nor the
    world it leaves. *)
Lemma generate_loop_traced cb base suffix lib sep cl l :
  forall w log,
    let run := generate_loop base (traced cb) suffix lib sep cl l (w, log) in
    (run.1, run.2.1) = generate_loop base cb suffix lib sep cl l w.
Proof.
  induction l as [|i rest IH]; intros w log; [reflexivity|].
  cbn [generate_loop]. unfold bind.
  set (c := tryname_of base suffix sep i).
  destruct (decide (c ∈ collidelist' cl)) as [Hin|Hin].
  - rewrite !collide_listed by done. cbn [truthy negb]. apply IH.
  - rewrite !collide_probed by done. rewrite traced_run. cbn [fst snd].
    destruct (collide_outcome lib (cb c w).1) as [v|e]; [|reflexivity].
    destruct (truthy v); cbn [negb]; [apply IH | reflexivity].
Qed.

Lemma append_assoc_str (a b c : string) : (a +:+ b) +:+ c = a +:+ b +:+ c.
Proof.
  induction a as [|x a IH]; [reflexivity|].
  change (String x ((a +:+ b) +:+ c) = String x (a +:+ b +:+ c)).
  by rewrite IH.
Qed.

Lemma tryname_of_None base suffix sep :
  tryname_of base suffix sep None = base +:+ suffix.
Proof. reflexivity. Qed.

Lemma tryname_of_Some base suffix sep n :
  tryname_of base suffix sep (Some n) = base +:+ sep +:+ fmt_d n +:+ suffix.
Proof. cbv beta iota zeta delta [tryname_of]. by rewrite !append_assoc_str. Qed.

Lemma length_range_from lo n : length (range_from lo n) = n.
Proof. revert lo. induction n as [|n IH]; intros lo; simpl; [done|]. by rewrite IH. Qed.

Lemma lookup_range_from n : forall lo (k : nat),
  (k < n)%nat -> range_from lo n !! k = Some (lo + Z.of_nat k).
Proof.
  induction n as [|n IH]; intros lo k Hk; [lia|].
  destruct k as [|k]; simpl.
  - f_equal. lia.
  - rewrite IH by lia. f_equal. lia.
Qed.

Lemma length_candidates base suffix start sep force :
  length (candidates base suffix start sep force)
    = Z.to_nat (if force then 100000 else 100001).
Proof.
  destruct force;
    cbv beta iota zeta delta [candidates numrange py_range negb];
    rewrite ?fmap_cons, ?length_cons, !length_fmap, length_range_from; lia.
Qed.

Lemma lookup_candidates_numbered (base suffix : string) (start : Z)
    (sep : string) (force : bool) (k : Z) :
  0 <= k < 100000 ->
  candidates base suffix start sep force
    !! (if force then Z.to_nat k else S (Z.to_nat k))
    = Some (base +:+ sep +:+ fmt_d (start + k) +:+ suffix).
Proof.
  intros Hk.
  assert (Hl : range_from start (Z.to_nat (start + 100000 - start))
                 !! Z.to_nat k = Some (start + k)).
  { rewrite lookup_range_from by lia. f_equal. lia. }
  destruct force;
    cbv beta iota zeta delta [candidates numrange py_range negb];
    rewrite ?fmap_cons, ?lookup_cons_ne_0 by done; cbn [Nat.pred];
    rewrite !list_lookup_fmap, Hl; cbn [fmap option_fmap option_map];
    by rewrite tryname_of_Some.
Qed.

(** A run in which every call of the callback reported a collision
    ends in the final [raise], after a call for each name that is not
    in [collidelist]. *)
Lemma loop_run_all_collide lib cl cs r tr :
  loop_run lib cl cs r tr ->
  Forall (fun co => collision_reported lib co.2 = true) tr ->
  r = Raise (ValueError "Name generation range exceeded.") /\
  tr.*1 = filter (fun c => c ∉ cl) cs.
Proof.
  induction 1 as [|c cs r tr Hin _ IH|c cs o r tr Hin Ho _ IH
                  |c cs o Hin Ho|c cs o e Hin Ho]; intros Hall.
  - done.
  - rewrite filter_cons_False by (intros ?; done). by apply IH.
  - rewrite filter_cons_True by done. apply Forall_cons in Hall as [_ Hall].
    destruct (IH Hall) as [-> Htr]. split; [done|].
    rewrite fmap_cons. cbn [fst]. by rewrite Htr.
  - apply Forall_cons in Hall as [Hc _]. simpl in Hc.
    unfold collision_reported, no_collision_reported in *.
    destruct (collide_outcome lib o); [|done]. destruct (truthy a); done.
  - apply Forall_cons in Hall as [Hc _]. simpl in Hc.
    unfold collision_reported in Hc. by rewrite Ho in Hc.
Qed.

(** A run that returns a name returns the first name that was neither
    in [collidelist] nor reported as colliding, and calls the callback
    for no later name. *)
Lemma loop_run_first_free lib cl cs name tr :
  loop_run lib cl cs (Ok name) tr ->
  exists (k : nat) earlier o,
    (cs !! k = Some name) /\
    (name ∉ cl) /\
    tr = earlier ++ [(name, o)] /\
    no_collision_reported lib o = true /\
    Forall (fun co => collision_reported lib co.2 = true) earlier /\
    earlier.*1 = filter (fun c => c ∉ cl) (take k cs).
Proof.
  remember (Ok name) as r eqn:Hr.
  induction 1 as [|c cs r tr Hin _ IH|c cs o r tr Hin Ho _ IH
                  |c cs o Hin Ho|c cs o e Hin Ho]; subst.
  - done.
  - destruct (IH eq_refl) as (k & earlier & o & Hk & Hn & -> & Hfree & Hall & Hpre).
    exists (S k), earlier, o. repeat split; try done.
    simpl. by rewrite filter_cons_False by (intros ?; done).
  - destruct (IH eq_refl) as (k & earlier & o' & Hk & Hn & -> & Hfree & Hall & Hpre).
    exists (S k), ((c, o) :: earlier), o'. repeat split; try done.
    + by constructor.
    + simpl. rewrite filter_cons_True by done. by rewrite <- Hpre.
  - inversion Hr; subst. exists 0%nat, [], o. repeat split; done.
  - done.
Qed.

(** An exception that [collide] passes on ends the run: it is the
    result of the loop. *)
Lemma loop_run_propagates lib cl cs r tr :
  loop_run lib cl cs r tr ->
  forall c o e, (c, o) ∈ tr -> collide_outcome lib o = Raise e -> r = Raise e.
Proof.
  induction 1 as [|c cs r tr Hin _ IH|c cs o r tr Hin Ho _ IH
                  |c cs o Hin Ho|c cs o e Hin Ho]; intros c' o' e' Hel Hout.
  - by apply elem_of_nil in Hel.
  - eauto.
  - apply elem_of_cons in Hel as [Heq|Hel]; [|eauto].
    inversion Heq; subst. unfold collision_reported in Ho.
    by rewrite Hout in Ho.
  - apply list_elem_of_singleton in Hel. inversion Hel; subst.
    unfold no_collision_reported in Ho. by rewrite Hout in Ho.
  - apply list_elem_of_singleton in Hel. inversion Hel; subst. congruence.
Qed.

(** The run of [generate_name] with a traced callback, from an empty
    log. *)
Lemma generate_name_run cb base suffix lib start sep force cl w :
  let run := generate_name base (traced cb) suffix lib start sep force cl
               (w, []) in
  loop_run lib (collidelist' cl) (candidates base suffix start sep force)
    run.1 run.2.2 /\
  Forall (fun co => exists w0, (cb co.1 w0).1 = co.2) run.2.2.
Proof.
  intros run. destruct run as [r [w' log']] eqn:Hrun. subst run.
  apply generate_loop_run in Hrun as (tr & -> & Hr & Hcb). done.
Qed.

Lemma generate_name_traced cb base suffix lib start sep force cl w :
  let run := generate_name base (traced cb) suffix lib start sep force cl
               (w, []) in
  generate_name base cb suffix lib start sep force cl w = (run.1, run.2.1).
Proof.
  intros run. symmetry. apply generate_loop_traced.
Qed.

Lemma generate_name_all_collide cb base suffix lib start sep force cl w :
  (forall n w0, collision_reported lib (cb n w0).1 = true) ->
  let run := generate_name base (traced cb) suffix lib start sep force cl
               (w, []) in
  (generate_name base cb suffix lib start sep force cl w).1
    = Raise (ValueError "Name generation range exceeded.") /\
  run.2.2.*1 = filter (fun c => c ∉ collidelist' cl)
                 (candidates base suffix start sep force).
Proof.
  intros Hcoll run. rewrite generate_name_traced. fold run. cbn [fst].
  destruct (generate_name_run cb base suffix lib start sep force cl w)
    as [Hr Hcb].
  apply (loop_run_all_collide _ _ _ _ _ Hr).
  eapply Forall_impl; [exact Hcb|]. intros [c o] [w0 <-]. apply Hcoll.
Qed.

Lemma filter_not_in_nil (l : list string) :
  filter (fun c => c ∉ @nil string) l = l.
Proof.
  induction l as [|x l IH]; [done|].
  rewrite filter_cons_True by apply not_elem_of_nil. by rewrite IH.
Qed.

End generate_name_facts.

(** ** What [generate_name] guarantees *)

Section generate_name_spec.
Import generatename Examples.
Context {W : Type}.
Implicit Types (cb : string -> M W pyval) (w : W).

(** C1 (amended). With [force_num] false and a callback that reports a
    collision at every call, [generate_name] raises the [ValueError]
    after exactly 100001 calls of the callback: the first for
    [base + suffix], the following 100000 for
    [base + sep + N + suffix] with N = start_num, start_num + 1, ...,
    start_num + 99999. *)
Theorem generate_name_exhausts_after_100001 cb (base suffix : string)
    (lib : bool) (start : Z) (sep : string) w :
  (forall n w0, collision_reported lib (cb n w0).1 = true) ->
  let run := generate_name base (traced cb) suffix lib start sep false None
               (w, []) in
  (generate_name base cb suffix lib start sep false None w).1
    = Raise (ValueError "Name generation range exceeded.") /\
  length run.2.2 = Z.to_nat 100001 /\
  (run.2.2.*1 !! 0%nat = Some (base +:+ suffix)) /\
  (forall k : Z, 0 <= k < 100000 ->
     run.2.2.*1 !! S (Z.to_nat k)
       = Some (base +:+ sep +:+ fmt_d (start + k) +:+ suffix)).
Proof.
  intros Hcoll run.
  destruct (generate_name_all_collide cb base suffix lib start sep false
              None w Hcoll) as [Hr Htr].
  fold run in Htr. cbn [collidelist' default] in Htr.
  rewrite filter_not_in_nil in Htr.
  split; [exact Hr|]. split; [|split].
  - rewrite <- (length_fmap fst), Htr. apply length_candidates.
  - rewrite Htr. reflexivity.
  - intros k Hk. rewrite Htr.
    apply (lookup_candidates_numbered base suffix start sep false k Hk).
Qed.

End generate_name_spec.

Section generate_name_instances.
Import generatename Examples.

Lemma generate_name_exhausts_after_100001_witness :
  let run := generate_name "foo" (traced always_collides) "" true 1 "-"
               false None (tt, []) in
  (generate_name "foo" always_collides "" true 1 "-" false None tt).1
    = Raise (ValueError "Name generation range exceeded.") /\
  length run.2.2 = Z.to_nat 100001 /\
  (run.2.2.*1 !! 0%nat = Some ("foo" +:+ "")) /\
  (forall k : Z, 0 <= k < 100000 ->
     run.2.2.*1 !! S (Z.to_nat k)
       = Some ("foo" +:+ "-" +:+ fmt_d (1 + k) +:+ "")).
Proof.
  apply (generate_name_exhausts_after_100001
           always_collides "foo" "" true 1 "-" tt).
  intros n w0. reflexivity.
Defined.

(** C1 as stated fails: [generate_name("foo", always_collides)] raises
    after 100001 calls of the callback, not after 100000. *)
Lemma generate_name_foo_makes_100001_calls :
  let run := generate_name "foo" (traced always_collides) "" true 1 "-"
               false None (tt, []) in
  (generate_name "foo" always_collides "" true 1 "-" false None tt).1
    = Raise (ValueError "Name generation range exceeded.") /\
  length run.2.2 = Z.to_nat 100001 /\
  length run.2.2 <> Z.to_nat 100000.
Proof.
  intros run.
  destruct (generate_name_all_collide always_collides "foo" "" true 1 "-"
              false None tt) as [Hr Htr]; [done|].
  fold run in Htr. cbn [collidelist' default] in Htr.
  rewrite filter_not_in_nil in Htr.
  assert (Hlen : length run.2.2 = Z.to_nat 100001).
  { rewrite <- (length_fmap fst), Htr. apply length_candidates. }
  split; [exact Hr|]. split; [exact Hlen|]. rewrite Hlen. lia.
Qed.

End generate_name_instances.

(** * Properties of the installer *)

Section boot_order.
Import Installer Examples.
Context {W Vol : Type} `{Host W Vol}.
Implicit Types (self : Installer Vol) (guest : Guest)
  (disks : list VirtualDisk).

(** The scan appends [BOOT_DEVICE_HARDDISK] once, at the first device of
    kind disk, unless the order already lists it. *)
Lemma boot_order_scan_spec (bootorder : list BootDevice) disks :
  boot_order_scan bootorder disks
    = if has_disk disks && negb (bool_decide (BOOT_DEVICE_HARDDISK ∈ bootorder))
      then bootorder ++ [BOOT_DEVICE_HARDDISK] else bootorder.
Proof.
  induction disks as [|d rest IH]; cbn [boot_order_scan has_disk existsb].
  - reflexivity.
  - destruct (decide (device d = DEVICE_DISK)) as [Hd|Hd].
    + rewrite (bool_decide_eq_true_2 _ Hd). cbn [orb andb].
      by destruct (bool_decide (BOOT_DEVICE_HARDDISK ∈ bootorder)).
    + rewrite (bool_decide_eq_false_2 _ Hd). cbn [orb]. exact IH.
Qed.

Lemma filter_disk_nil disks :
  bool_decide (filter (fun d => device d = DEVICE_DISK) disks = [])
    = negb (has_disk disks).
Proof.
  induction disks as [|d rest IH]; [reflexivity|].
  cbn [has_disk existsb].
  destruct (decide (device d = DEVICE_DISK)) as [Hd|Hd].
  - rewrite filter_cons_True, (bool_decide_eq_true_2 _ Hd) by done.
    reflexivity.
  - rewrite filter_cons_False, (bool_decide_eq_false_2 _ Hd) by done.
    exact IH.
Qed.

(** C3. When the primary boot device is [None] the boot order is
    empty; otherwise it starts with the primary, followed by
    [BOOT_DEVICE_HARDDISK] exactly when the guest has a device of kind
    disk and the primary is not [BOOT_DEVICE_HARDDISK] itself; the
    devices after the first one of kind disk are not looked at. *)
Theorem build_boot_order_assembles self (isinstall : bool) guest
    (primary : option BootDevice) :
  _get_bootdev (cls self) isinstall guest = Ok primary ->
  _build_boot_order self isinstall guest
    = Ok match primary with
         | None => []
         | Some p =>
             p :: (if has_disk (get_devices_disk guest)
                      && negb (bool_decide (p = BOOT_DEVICE_HARDDISK))
                   then [BOOT_DEVICE_HARDDISK] else [])
         end
  /\ (forall (bootorder : list BootDevice) before d after,
        has_disk before = false -> device d = DEVICE_DISK ->
        boot_order_scan bootorder (before ++ d :: after)
          = boot_order_scan bootorder (before ++ [d])).
Proof.
  intros Hdev. split.
  - unfold _build_boot_order. rewrite Hdev. cbn [result_bind].
    destruct primary as [p|]; [|reflexivity].
    rewrite boot_order_scan_spec. f_equal.
    destruct (has_disk (get_devices_disk guest)); cbn [andb]; [|reflexivity].
    destruct p; reflexivity.
  - intros bootorder before d after Hb Hd.
    induction before as [|b before IH]; cbn [app boot_order_scan].
    + by destruct (decide (device d = DEVICE_DISK)).
    + cbn [has_disk existsb] in Hb.
      apply orb_false_iff in Hb as [Hb1 Hb2].
      apply bool_decide_eq_false in Hb1.
      destruct (decide (device b = DEVICE_DISK)); [done | by apply IH].
Qed.

(** C4. [PXEInstaller] boots from the network, except that after the
    install, when the guest has a device of kind disk, it boots from
    the hard disk. *)
Theorem pxe_get_bootdev (isinstall : bool) guest :
  _get_bootdev PXEInstaller isinstall guest
    = Ok (Some (if negb isinstall && has_disk (get_devices_disk guest)
                then BOOT_DEVICE_HARDDISK else BOOT_DEVICE_NETWORK))
  /\ (forall g, _get_bootdev PXEInstaller true g
                  = Ok (Some BOOT_DEVICE_NETWORK))
  /\ _get_bootdev PXEInstaller false (guest_with [])
       = Ok (Some BOOT_DEVICE_NETWORK)
  /\ _get_bootdev PXEInstaller false (guest_with [DEVICE_DISK])
       = Ok (Some BOOT_DEVICE_HARDDISK).
Proof.
  split; [|split; [|split]]; try reflexivity.
  cbn [_get_bootdev PXEInstaller]. by rewrite filter_disk_nil, negb_involutive.
Qed.

(** C7. [ImportInstaller] looks at the first disk device only, whatever
    [isinstall] is: without any it boots from the hard disk; a disk
    gives the hard disk, a cdrom the cdrom, a floppy the floppy, and
    any other kind the hard disk. *)
Theorem import_get_bootdev (isinstall : bool) guest :
  _get_bootdev ImportInstaller isinstall guest
    = Ok (Some match get_devices_disk guest with
               | [] => BOOT_DEVICE_HARDDISK
               | disk0 :: _ =>
                   match device disk0 with
                   | DEVICE_DISK => BOOT_DEVICE_HARDDISK
                   | DEVICE_CDROM => BOOT_DEVICE_CDROM
                   | DEVICE_FLOPPY => BOOT_DEVICE_FLOPPY
                   | DEVICE_OTHER _ => BOOT_DEVICE_HARDDISK
                   end
               end)
  /\ _get_bootdev ImportInstaller isinstall (guest_with [])
       = Ok (Some BOOT_DEVICE_HARDDISK)
  /\ _get_bootdev ImportInstaller isinstall
       (guest_with [DEVICE_CDROM; DEVICE_DISK])
       = Ok (Some BOOT_DEVICE_CDROM)
  /\ _get_bootdev ImportInstaller isinstall (guest_with [DEVICE_FLOPPY])
       = Ok (Some BOOT_DEVICE_FLOPPY).
Proof.
  split; [|split; [|split]]; try reflexivity.
  cbn [_get_bootdev ImportInstaller].
  destruct (get_devices_disk guest) as [|disk0 rest]; [reflexivity|].
  unfold _disk_to_bootdev. by destruct (device disk0).
Qed.

(** C8. Whenever [_get_xml_config] goes on to build a configuration
    (there is an install phase or the post-install configuration is
    asked for, and the boot order could be computed), the configuration
    it hands to the serializer has the computed boot order when the
    installer's own configuration has none, and the installer's own boot
    order, unchanged, when it has one. *)
Theorem get_xml_config_bootorder self guest (isinstall : bool)
    (computed : list BootDevice) :
  isinstall && negb (has_install_phase self) = false ->
  _build_boot_order self isinstall guest = Ok computed ->
  exists cfg,
    _get_xml_config (fun _ _ bc _ => bc) self guest isinstall
      = Ok (Some cfg) /\
    (bootorder (bootconfig self) = [] -> bootorder cfg = computed) /\
    (bootorder (bootconfig self) <> [] ->
       bootorder cfg = bootorder (bootconfig self)).
Proof.
  intros Hphase Horder. unfold _get_xml_config.
  rewrite Hphase, Horder. cbn [result_bind]. eexists. split; [reflexivity|].
  unfold copy.
  split; intros Hset;
    [rewrite (bool_decide_eq_true_2 _ Hset)
    |rewrite (bool_decide_eq_false_2 _ Hset)];
    destruct isinstall, (truthy_str (_install_kernel self)),
      (truthy_str (_install_initrd self)),
      (truthy_str (_install_args self)); reflexivity.
Qed.

End boot_order.

Section boot_order_instances.
Import Installer Examples.

Lemma build_boot_order_assembles_witness :
  _build_boot_order (new_installer PXEInstaller kvm_bootconfig false [] [])
    true (guest_with [DEVICE_CDROM; DEVICE_DISK; DEVICE_DISK])
    = Ok [BOOT_DEVICE_NETWORK; BOOT_DEVICE_HARDDISK].
Proof.
  apply (proj1 (build_boot_order_assembles
                  (new_installer PXEInstaller kvm_bootconfig false [] [])
                  true (guest_with [DEVICE_CDROM; DEVICE_DISK; DEVICE_DISK])
                  (Some BOOT_DEVICE_NETWORK) eq_refl)).
Defined.

Lemma get_xml_config_bootorder_witness :
  (exists cfg,
     _get_xml_config (fun _ _ bc _ => bc)
       (new_installer PXEInstaller kvm_bootconfig false [] [])
       (guest_with [DEVICE_DISK]) false
       = Ok (Some cfg) /\
     (bootorder kvm_bootconfig = [] ->
        bootorder cfg = [BOOT_DEVICE_HARDDISK]) /\
     (bootorder kvm_bootconfig <> [] ->
        bootorder cfg = bootorder kvm_bootconfig)) /\
  (exists cfg,
     _get_xml_config (fun _ _ bc _ => bc)
       (new_installer PXEInstaller cdrom_first_bootconfig false [] [])
       (guest_with [DEVICE_DISK]) true
       = Ok (Some cfg) /\
     (bootorder cdrom_first_bootconfig = [] ->
        bootorder cfg = [BOOT_DEVICE_NETWORK; BOOT_DEVICE_HARDDISK]) /\
     (bootorder cdrom_first_bootconfig <> [] ->
        bootorder cfg = bootorder cdrom_first_bootconfig)).
Proof.
  split.
  - apply (get_xml_config_bootorder
             (new_installer PXEInstaller kvm_bootconfig false [] [])
             (guest_with [DEVICE_DISK]) false [BOOT_DEVICE_HARDDISK]);
      reflexivity.
  - apply (get_xml_config_bootorder
             (new_installer PXEInstaller cdrom_first_bootconfig false [] [])
             (guest_with [DEVICE_DISK]) true
             [BOOT_DEVICE_NETWORK; BOOT_DEVICE_HARDDISK]);
      reflexivity.
Defined.

End boot_order_instances.

(** ** The cdrom flag *)

Section cdrom.
Import Installer Examples.
Context {Vol : Type}.
Implicit Types (self : Installer Vol) (enable : pyval).

(** The values [set_cdrom] lets through are those equal to [True] or
    to [False]: the two booleans and the integers 1 and 0. *)
Lemma py_in_True_False enable :
  py_in enable [VBool true; VBool false] = true <->
  (exists b, enable = VBool b) \/ enable = VInt 1 \/ enable = VInt 0.
Proof.
  split.
  - destruct enable as [|b|z|s0]; cbn [py_in existsb py_eq orb].
    + discriminate.
    + eauto.
    + intros Hz. right.
      destruct (Z.eqb_spec z 1) as [Hz1|_]; [left; by f_equal|].
      destruct (Z.eqb_spec z 0) as [Hz0|_]; [right; by f_equal|].
      discriminate.
    + discriminate.
  - intros [[b ->]|[->| ->]]; [by destruct b|reflexivity..].
Qed.

(** A rejected value raises the [ValueError] and leaves the object as
    it was. *)
Lemma set_cdrom_rejected_unchanged enable self :
  py_in enable [VBool true; VBool false] = false ->
  set_cdrom enable self
    = (Raise (ValueError "Guest.cdrom must be a boolean type"), self).
Proof. intros Hin. unfold set_cdrom. by rewrite Hin. Qed.

Lemma set_cdrom_accepted enable self :
  py_in enable [VBool true; VBool false] = true ->
  set_cdrom enable self = (Ok tt, set__cdrom self enable).
Proof. intros Hin. unfold set_cdrom. by rewrite Hin. Qed.

(** C6. [set_cdrom(1)] does not raise: the integer 1, which is no
    boolean, passes the test [enable not in [True, False]] and is
    stored in [_cdrom]. *)
Theorem set_cdrom_accepts_int_one self :
  set_cdrom (VInt 1) self = (Ok tt, set__cdrom self (VInt 1)) /\
  get_cdrom (set_cdrom (VInt 1) self).2 = VInt 1.
Proof. split; reflexivity. Qed.

End cdrom.

(** ** The scratch directory *)

Section scratchdir.
Import Installer Examples.
Context {W Vol : Type} `{Host W Vol}.
Implicit Types (self : Installer Vol) (w : W).

Lemma system_scratchdir_truthy self w :
  truthy (VStr (_get_system_scratchdir self w)) = true.
Proof.
  unfold _get_system_scratchdir.
  destruct (String.eqb (platform_system w) "SunOS"); [reflexivity|].
  destruct (bool_decide (type (bootconfig self) = Some "test"));
    [reflexivity|].
  destruct (bool_decide (type (bootconfig self) = Some "xen"));
    reflexivity.
Qed.

(** C9. In session mode no system directory is considered; otherwise
    the candidate is [/var/tmp] on SunOS, else [/tmp] for the test
    driver, else [/var/lib/xen] for xen, else [/var/lib/libvirt/boot].
    A candidate that exists and is writable is the result, and the
    world is left as it is. In every other case the result is
    [~/.virtinst/boot] under the home directory, created with mode
    0751 when it does not exist. *)
Theorem get_scratchdir_resolves self w :
  let home_dir := os_path_expanduser "~/.virtinst/boot" w in
  let fallback :=
    if os_path_exists home_dir w then (Ok home_dir, w)
    else match os_makedirs home_dir 489 w with
         | (Ok _, w') => (Ok home_dir, w')
         | (Raise e, w') => (Raise e, w')
         end in
  let candidate :=
    if String.eqb (platform_system w) "SunOS" then "/var/tmp"
    else if bool_decide (type (bootconfig self) = Some "test") then "/tmp"
    else if bool_decide (type (bootconfig self) = Some "xen")
         then "/var/lib/xen"
    else "/var/lib/libvirt/boot" in
  _get_scratchdir self w
    = if negb (is_session_uri (conn self))
         && os_path_exists candidate w && os_access_W_OK candidate w
      then (Ok candidate, w) else fallback.
Proof.
  intros home_dir fallback candidate.
  assert (Hfb : (if negb (os_path_exists home_dir w)
                 then (_ <- os_makedirs home_dir 489 ;; ret home_dir)%py w
                 else (Ok home_dir, w)) = fallback).
  { unfold fallback, bind, ret.
    destruct (os_path_exists home_dir w); [reflexivity|]. cbn [negb].
    by destruct (os_makedirs home_dir 489 w) as [[[]|e] w']. }
  unfold _get_scratchdir. fold home_dir. rewrite Hfb.
  destruct (is_session_uri (conn self)); cbn [negb andb scratch_unusable];
    [reflexivity|].
  rewrite system_scratchdir_truthy. cbn [negb orb].
  change (_get_system_scratchdir self w) with candidate.
  destruct (os_path_exists candidate w); cbn [negb orb andb]; [|reflexivity].
  destruct (os_access_W_OK candidate w); reflexivity.
Qed.

End scratchdir.

Section scratchdir_instances.
Import Installer Examples.

(** On the example host [/var/lib/libvirt/boot] exists but is not
    writable: a system connection ends in the home directory, which is
    created. *)
Example get_scratchdir_falls_back :
  _get_scratchdir (new_installer PXEInstaller kvm_bootconfig false [] [])
    linux_host
  = (Ok "/home/user/.virtinst/boot",
     with_dirs linux_host
       (dirs linux_host ++ [("/home/user/.virtinst/boot", true)])).
Proof. vm_compute. reflexivity. Qed.

End scratchdir_instances.

(** ** Cleanup *)

Section cleanup_facts.
Import Installer Examples.
Context {W Vol : Type} (H : Host W Vol).
Implicit Types (self : Installer Vol) (w : W)
  (log : list ((string + Vol) * result unit)).

Lemma unlink_loop_run (fs : list string) : forall w log r w' log',
  for_each (os_unlink (Host := traced_host H)) fs (w, log)
    = (r, (w', log')) ->
  exists tr, log' = log ++ tr /\ deletes_run (inl <$> fs) r tr.
Proof.
  induction fs as [|f fs IH]; intros w log r w' log' Hrun.
  - inversion Hrun; subst. exists []. rewrite app_nil_r.
    split; [done | constructor].
  - cbn [for_each] in Hrun. unfold bind in Hrun.
    cbn [os_unlink traced_host] in Hrun. unfold traced_as in Hrun.
    cbn [fst snd] in Hrun.
    destruct (os_unlink f w) as [[[]|e] w1].
    + destruct (IH _ _ _ _ _ Hrun) as (tr & -> & Hr).
      exists ((inl f, Ok tt) :: tr). rewrite <- app_assoc.
      split; [done|]. rewrite fmap_cons. by constructor.
    + inversion Hrun; subst. exists [(inl f, Raise e)].
      split; [done|]. rewrite fmap_cons. constructor.
Qed.

Lemma vol_loop_run (vols : list Vol) : forall w log r w' log',
  for_each
    (fun vol => _ <- vol_name (Host := traced_host H) vol ;;
                vol_delete (Host := traced_host H) vol 0)%py
    vols (w, log)
    = (r, (w', log')) ->
  exists tr, log' = log ++ tr /\ deletes_run (inr <$> vols) r tr.
Proof.
  induction vols as [|vol vols IH]; intros w log r w' log' Hrun.
  - inversion Hrun; subst. exists []. rewrite app_nil_r.
    split; [done | constructor].
  - cbn [for_each] in Hrun. unfold bind in Hrun.
    cbn [vol_name vol_delete traced_host] in Hrun.
    unfold traced_as, on_world in Hrun. cbn [fst snd] in Hrun.
    destruct (vol_name vol w) as [[n|e] w1]; cbn [fst snd] in Hrun.
    + destruct (vol_delete vol 0 w1) as [[[]|e] w2].
      * destruct (IH _ _ _ _ _ Hrun) as (tr & -> & Hr).
        exists ((inr vol, Ok tt) :: tr). rewrite <- app_assoc.
        split; [done|]. rewrite fmap_cons. by constructor.
      * inversion Hrun; subst. exists [(inr vol, Raise e)].
        split; [done|]. rewrite fmap_cons. constructor.
    + inversion Hrun; subst. exists []. rewrite app_nil_r.
      split; [done|]. rewrite fmap_cons. constructor.
Qed.

Lemma deletes_run_app_raise (cs1 cs2 : list (string + Vol)) e tr :
  deletes_run cs1 (Raise e) tr -> deletes_run (cs1 ++ cs2) (Raise e) tr.
Proof.
  remember (Raise e) as r eqn:Hr.
  induction 1 as [|c cs r tr _ IH|c cs e'|vol cs e']; subst;
    try discriminate; cbn [app].
  - constructor. by apply IH.
  - inversion Hr; subst. constructor.
  - inversion Hr; subst. constructor.
Qed.

Lemma deletes_run_app_ok (cs1 cs2 : list (string + Vol)) r tr1 tr2 :
  deletes_run cs1 (Ok tt) tr1 -> deletes_run cs2 r tr2 ->
  deletes_run (cs1 ++ cs2) r (tr1 ++ tr2).
Proof.
  remember (Ok tt) as r1 eqn:Hr1.
  induction 1 as [|c cs r' tr _ IH|c cs e'|vol cs e']; subst;
    try discriminate; intros H2; cbn [app].
  - done.
  - constructor. by apply IH.
Qed.

(** A run that ends well deleted every entry; a run that raises made
    its calls for a prefix of the entries, all but the failing one
    successful, and none for the entries after it. *)
Lemma deletes_run_inv (cs : list (string + Vol)) r tr :
  deletes_run cs r tr ->
  match r with
  | Ok _ => tr = deleted cs
  | Raise e =>
      exists before c after,
        cs = before ++ c :: after /\
        (tr = deleted before ++ [(c, Raise e)] \/
         tr = deleted before /\ exists vol, c = inr vol)
  end.
Proof.
  induction 1 as [|c cs r tr _ IH|c cs e|vol cs e].
  - reflexivity.
  - destruct r as [[]|e].
    + unfold deleted. rewrite fmap_cons. by rewrite IH.
    + destruct IH as (before & c' & after & -> & Htr).
      exists (c :: before), c', after. split; [done|].
      unfold deleted. rewrite fmap_cons.
      destruct Htr as [->|[-> Hvol]]; [by left | by right].
  - exists [], c, cs. split; [done|]. by left.
  - exists [], (inr vol), cs. split; [done|]. right. eauto.
Qed.

(** [cleanup] with the delete calls traced: the run of its two loops,
    and the object it leaves. *)
Lemma cleanup_run self w :
  let run := cleanup (H := traced_host H) ((w, []), self) in
  deletes_run (tracked self) run.1 run.2.1.2 /\
  run.2.2 = match run.1 with Ok _ => cleared self | Raise _ => self end.
Proof.
  unfold cleanup, bind, on_world, tracked. cbn [fst snd].
  destruct (for_each os_unlink (_tmpfiles self) (w, []))
    as [r1 [w1 log1]] eqn:Hfiles.
  apply unlink_loop_run in Hfiles as (tr1 & -> & Hr1).
  rewrite app_nil_l in *.
  destruct r1 as [[]|e1]; cbn [fst snd].
  - destruct (for_each _ (_tmpvols self) (w1, tr1))
      as [r2 [w2 log2]] eqn:Hvols.
    apply vol_loop_run in Hvols as (tr2 & -> & Hr2).
    destruct r2 as [[]|e2]; cbn [fst snd].
    + split; [by apply deletes_run_app_ok | reflexivity].
    + split; [by apply deletes_run_app_ok | reflexivity].
  - split; [by apply deletes_run_app_raise | reflexivity].
Qed.

(** C2 (amended). [cleanup] deletes the tracked temp files and then
    the tracked temp volumes, in order, and stops at the first call
    that raises. When every delete succeeded, each tracked entry was
    deleted once and the three collections are cleared. When a call
    raises, the exception is passed on, no delete is attempted for
    the entries after the failing one, and the object is left as it
    was, so that these entries are still tracked. *)
Theorem cleanup_stops_at_first_failure self w :
  let run := cleanup (H := traced_host H) ((w, []), self) in
  match run.1 with
  | Ok _ =>
      run.2.1.2 = deleted (tracked self) /\
      run.2.2 = cleared self /\
      install_devices run.2.2 = [] /\
      _tmpfiles run.2.2 = [] /\
      _tmpvols run.2.2 = []
  | Raise e =>
      run.2.2 = self /\
      exists before c after,
        tracked self = before ++ c :: after /\
        (run.2.1.2 = deleted before ++ [(c, Raise e)] \/
         run.2.1.2 = deleted before /\ exists vol, c = inr vol)
  end.
Proof.
  intros run. destruct (cleanup_run self w) as [Hrun Hself].
  fold run in Hrun, Hself. apply deletes_run_inv in Hrun.
  destruct run.1 as [[]|e].
  - rewrite Hself. split; [exact Hrun|]. split; [reflexivity|].
    split; [|split]; reflexivity.
  - split; [exact Hself | exact Hrun].
Qed.

End cleanup_facts.

Section cleanup_instances.
Import Installer Examples.

(** C2 as stated fails: when the first tracked file is already gone,
    [os.unlink] raises for it and [cleanup] makes no delete call for
    the second tracked file, which stays on the host. *)
Lemma cleanup_skips_entries_after_failure :
  let self := new_installer PXEInstaller kvm_bootconfig false
                ["/tmp/a.img"; "/tmp/b.img"] ["vol0"] in
  let run := cleanup (H := traced_host World_host)
               ((linux_host, []), self) in
  run.1 = Raise (OSError "No such file or directory") /\
  run.2.1.2 = [(inl "/tmp/a.img",
                Raise (OSError "No such file or directory"))] /\
  (inl "/tmp/b.img" ∈ tracked self) /\
  (inl "/tmp/b.img" ∉ run.2.1.2.*1) /\
  ("/tmp/b.img" ∈ files run.2.1.1) /\
  run.2.2 = self.
Proof.
  intros self run.
  assert (Hrun : run = (Raise (OSError "No such file or directory"),
                        ((linux_host,
                          [(inl "/tmp/a.img",
                            Raise (OSError "No such file or directory"))]),
                         self))) by (vm_compute; reflexivity).
  rewrite Hrun. cbn [fst snd].
  split; [reflexivity|]. split; [reflexivity|].
  split; [vm_compute; do 2 constructor|].
  split; [|split; [vm_compute; constructor | reflexivity]].
  intros Hin. apply list_elem_of_singleton in Hin. discriminate.
Qed.

(** When both tracked files and the volume are there, all three are
    deleted and the collections are cleared. *)
Example cleanup_deletes_all :
  let self := new_installer PXEInstaller kvm_bootconfig false
                ["/tmp/b.img"] ["vol0"] in
  cleanup (H := traced_host World_host) ((linux_host, []), self)
  = (Ok tt,
     ((with_volumes (with_files linux_host []) [],
       [(inl "/tmp/b.img", Ok tt); (inr "vol0", Ok tt)]),
      cleared self)).
Proof. vm_compute. reflexivity. Qed.

End cleanup_instances.

(** * Further properties of the name generator *)

Section generate_name_more_facts.
Import generatename.

Lemma loop_run_not_listed lib cl cs r tr :
  loop_run lib cl cs r tr ->
  Forall (fun co => co.1 ∉ cl) tr /\
  (forall name, r = Ok name -> name ∉ cl).
Proof.
  induction 1 as [|c cs r tr Hin _ IH|c cs o r tr Hin Ho _ IH
                  |c cs o Hin Ho|c cs o e Hin Ho].
  - split; [constructor | discriminate].
  - exact IH.
  - destruct IH as [IH1 IH2]. split; [by constructor | exact IH2].
  - split; [by repeat constructor|]. intros name Hname.
    inversion Hname; by subst.
  - split; [by repeat constructor | discriminate].
Qed.

Lemma loop_run_prefix lib cl cs r tr :
  loop_run lib cl cs r tr ->
  tr.*1 `prefix_of` filter (fun c => c ∉ cl) cs.
Proof.
  induction 1 as [|c cs r tr Hin _ IH|c cs o r tr Hin Ho _ IH
                  |c cs o Hin Ho|c cs o e Hin Ho].
  - done.
  - by rewrite filter_cons_False by (intros ?; done).
  - rewrite filter_cons_True by done. rewrite fmap_cons. cbn [fst].
    by apply prefix_cons.
  - rewrite filter_cons_True by done. cbn. apply prefix_cons, prefix_nil.
  - rewrite filter_cons_True by done. cbn. apply prefix_cons, prefix_nil.
Qed.

(** A run that raises either ran out of names, each call having reported
    a collision, or passes on what its last call of the callback
    raised. *)
Lemma loop_run_raise_cases lib cl cs e tr :
  loop_run lib cl cs (Raise e) tr ->
  (e = ValueError "Name generation range exceeded." /\
   tr.*1 = filter (fun c => c ∉ cl) cs /\
   Forall (fun co => collision_reported lib co.2 = true) tr) \/
  (exists earlier c o,
     tr = earlier ++ [(c, o)] /\ collide_outcome lib o = Raise e).
Proof.
  remember (Raise e) as r eqn:Hr.
  induction 1 as [|c cs r tr Hin _ IH|c cs o r tr Hin Ho _ IH
                  |c cs o Hin Ho|c cs o e' Hin Ho]; subst.
  - left. inversion Hr. by repeat split.
  - rewrite filter_cons_False by (intros ?; done). by apply IH.
  - rewrite filter_cons_True by done.
    destruct (IH eq_refl) as [(-> & Htr & Hall)|(earlier & c' & o' & -> & Hout)].
    + left. split; [done|]. split; [|by constructor].
      rewrite fmap_cons. cbn [fst]. by rewrite Htr.
    + right. exists ((c, o) :: earlier), c', o'. by split.
  - discriminate.
  - inversion Hr; subst. right. exists [], c, o. by split.
Qed.

Lemma string_app_inv_head (s x y : string) : s +:+ x = s +:+ y -> x = y.
Proof.
  induction s as [|a s IH]; [done|]. intros Heq.
  change (String a (s +:+ x) = String a (s +:+ y)) in Heq.
  inversion Heq. by apply IH.
Qed.

Lemma string_app_length (x y : string) :
  String.length (x +:+ y) = (String.length x + String.length y)%nat.
Proof.
  induction x as [|a x IH]; [done|].
  change (S (String.length (x +:+ y))
          = S (String.length x + String.length y)%nat).
  by rewrite IH.
Qed.

Lemma string_app_inv_tail (s x y : string) : x +:+ s = y +:+ s -> x = y.
Proof.
  revert y. induction x as [|a x IH]; intros [|b y] Heq; [done| | |].
  - apply (f_equal String.length) in Heq.
    change ("" +:+ s) with s in Heq. rewrite string_app_length in Heq.
    cbn [String.length] in Heq. lia.
  - apply (f_equal String.length) in Heq.
    change ("" +:+ s) with s in Heq. rewrite string_app_length in Heq.
    cbn [String.length] in Heq. lia.
  - change (String a (x +:+ s) = String b (y +:+ s)) in Heq.
    inversion Heq. f_equal. by apply IH.
Qed.

Lemma to_int_not_nil (z : Z) :
  Z.to_int z <> Decimal.Pos Decimal.Nil /\
  Z.to_int z <> Decimal.Neg Decimal.Nil.
Proof.
  destruct z as [|p|p]; cbn [Z.to_int]; split; try discriminate;
    intros Heq; inversion Heq as [Hp];
    by apply DecimalPos.Unsigned.to_uint_nonnil in Hp.
Qed.

Lemma fmt_d_parse (z : Z) :
  NilZero.int_of_string (fmt_d z) = Some (Z.to_int z).
Proof.
  unfold fmt_d. destruct (to_int_not_nil z). by apply NilZero.isi.
Qed.

Lemma fmt_d_inj (a b : Z) : fmt_d a = fmt_d b -> a = b.
Proof.
  intros Heq. apply DecimalZ.to_int_inj.
  pose proof (fmt_d_parse a) as Ha. rewrite Heq, fmt_d_parse in Ha.
  by inversion Ha.
Qed.

Lemma fmt_d_nonempty (z : Z) : (0 < String.length (fmt_d z))%nat.
Proof.
  pose proof (fmt_d_parse z) as Hz.
  destruct (fmt_d z); [discriminate|]. cbn [String.length]. lia.
Qed.

Lemma elem_of_range_from x n : forall lo,
  x ∈ range_from lo n -> lo <= x < lo + Z.of_nat n.
Proof.
  induction n as [|n IH]; intros lo Hx; cbn [range_from] in Hx.
  - by apply elem_of_nil in Hx.
  - apply elem_of_cons in Hx as [->|Hx]; [lia|].
    apply IH in Hx. lia.
Qed.

Lemma NoDup_range_from n : forall lo, NoDup (range_from lo n).
Proof.
  induction n as [|n IH]; intros lo; cbn [range_from]; constructor.
  - intros Hx. apply elem_of_range_from in Hx. lia.
  - apply IH.
Qed.

Lemma numrange_head (start : Z) (force : bool) :
  exists rest,
    numrange start force = (if force then Some start else None) :: rest.
Proof.
  cbv beta iota zeta delta [numrange py_range].
  replace (Z.to_nat (start + 100000 - start)) with (S (Z.to_nat 99999))
    by lia.
  cbn [range_from]. rewrite fmap_cons.
  destruct force; cbn [negb]; eauto.
Qed.

(** A candidate is the bare name, when [force_num] is false, or a
    numbered name. *)
Lemma elem_of_candidates (base suffix : string) (start : Z) (sep : string)
    (force : bool) (c : string) :
  c ∈ candidates base suffix start sep force ->
  force = false /\ c = base +:+ suffix \/
  exists k : Z, 0 <= k < 100000 /\
    c = base +:+ sep +:+ fmt_d (start + k) +:+ suffix.
Proof.
  cbv beta iota zeta delta [candidates numrange py_range].
  assert (Hnum :
            c ∈ tryname_of base suffix sep
                  <$> (Some <$> range_from start
                                  (Z.to_nat (start + 100000 - start))) ->
            exists k : Z, 0 <= k < 100000 /\
              c = base +:+ sep +:+ fmt_d (start + k) +:+ suffix).
  { intros Hc. apply list_elem_of_fmap in Hc as (i & -> & Hi).
    apply list_elem_of_fmap in Hi as (n & -> & Hn).
    apply elem_of_range_from in Hn.
    exists (n - start). split; [lia|].
    rewrite tryname_of_Some.
    by replace (start + (n - start)) with n by lia. }
  destruct force; cbn [negb]; intros Hc.
  - right. by apply Hnum.
  - rewrite fmap_cons in Hc. apply elem_of_cons in Hc as [->|Hc].
    + by left.
    + right. by apply Hnum.
Qed.

Lemma tryname_of_inj (base suffix sep : string) (i j : option Z) :
  tryname_of base suffix sep i = tryname_of base suffix sep j -> i = j.
Proof.
  assert (Hbare : forall n,
            tryname_of base suffix sep None
              <> tryname_of base suffix sep (Some n)).
  { intros n Heq. rewrite tryname_of_None, tryname_of_Some in Heq.
    apply string_app_inv_head in Heq.
    apply (f_equal String.length) in Heq.
    rewrite !string_app_length in Heq.
    pose proof (fmt_d_nonempty n). lia. }
  destruct i as [a|], j as [b|]; intros Heq.
  - rewrite !tryname_of_Some in Heq.
    do 2 apply string_app_inv_head in Heq.
    apply string_app_inv_tail in Heq. f_equal. by apply fmt_d_inj.
  - symmetry in Heq. by apply Hbare in Heq.
  - by apply Hbare in Heq.
  - done.
Qed.

Lemma NoDup_numrange (start : Z) (force : bool) : NoDup (numrange start force).
Proof.
  cbv beta iota zeta delta [numrange py_range].
  assert (Hnum : NoDup (Some <$> range_from start
                                   (Z.to_nat (start + 100000 - start)))).
  { apply NoDup_fmap; [apply _ | apply NoDup_range_from]. }
  destruct force; cbn [negb]; [exact Hnum|].
  constructor; [|exact Hnum].
  intros Hin. apply list_elem_of_fmap in Hin as (n & Hn & _). discriminate.
Qed.

Lemma candidates_distinct (base suffix : string) (start : Z)
    (sep : string) (force : bool) :
  NoDup (candidates base suffix start sep force).
Proof.
  unfold candidates. apply NoDup_fmap_2_strong; [|apply NoDup_numrange].
  intros i j _ _. apply tryname_of_inj.
Qed.

(** In a list without repetition, the entry at a position does not
    occur before that position. *)
Lemma NoDup_not_in_take {A} (l : list A) (k : nat) (x : A) :
  NoDup l -> l !! k = Some x -> x ∉ take k l.
Proof.
  intros Hnd Hk Hin. apply list_elem_of_lookup in Hin as [j Hj].
  apply lookup_take_Some in Hj as [Hj Hlt].
  pose proof (NoDup_lookup l j k x Hnd Hj Hk). lia.
Qed.

(** A call that reported no collision ends the run: its name is
    returned. *)
Lemma loop_run_free_entry lib cl cs r tr :
  loop_run lib cl cs r tr ->
  forall c o, (c, o) ∈ tr -> no_collision_reported lib o = true -> r = Ok c.
Proof.
  induction 1 as [|c cs r tr Hin _ IH|c cs o r tr Hin Ho _ IH
                  |c cs o Hin Ho|c cs o e Hin Ho]; intros c' o' Hel Hfree.
  - by apply elem_of_nil in Hel.
  - eauto.
  - apply elem_of_cons in Hel as [Heq|Hel]; [|eauto].
    inversion Heq; subst.
    unfold collision_reported, no_collision_reported in *.
    destruct (collide_outcome lib o) as [v|e]; [|done].
    by destruct (truthy v).
  - apply list_elem_of_singleton in Hel. by inversion Hel.
  - apply list_elem_of_singleton in Hel. inversion Hel; subst.
    unfold no_collision_reported in Hfree. by rewrite Ho in Hfree.
Qed.

(** What the two conventions count as a collision and as none, in terms
    of the outcome of the callback. *)
Lemma collision_reported_iff (lib : bool) (o : result pyval) :
  collision_reported lib o = true <->
  if lib then exists r, o = Ok r /\ r <> VNone
  else exists v, o = Ok v /\ truthy v = true.
Proof.
  unfold collision_reported, collide_outcome.
  destruct lib, o as [v|e]; cbn [truthy].
  - split.
    + intros Hv. exists v. split; [done|]. intros ->. discriminate.
    + intros (r & Hr & Hnone). inversion Hr; subst. by destruct r.
  - destruct e; (split; [discriminate | intros (r & Hr & _); discriminate]).
  - split; [intros Hv; eauto|]. intros (v' & Hv' & Ht). by inversion Hv'; subst.
  - split; [discriminate | intros (v' & Hv' & _); discriminate].
Qed.

Lemma no_collision_reported_iff (lib : bool) (o : result pyval) :
  no_collision_reported lib o = true <->
  if lib then o = Ok VNone \/ exists msg, o = Raise (libvirtError msg)
  else exists v, o = Ok v /\ truthy v = false.
Proof.
  unfold no_collision_reported, collide_outcome.
  destruct lib, o as [v|e]; cbn [truthy].
  - split.
    + intros Hv. left. by destruct v.
    + intros [Hv|(m & Hm)]; [by inversion Hv | discriminate].
  - destruct e as [m|m|m|m|k m];
      (split; [first [discriminate | intros _; right; by eauto]|]);
      first [reflexivity | intros [Hv|(m' & Hm')]; discriminate].
  - split.
    + intros Hv. exists v. split; [done|]. by apply negb_true_iff.
    + intros (v' & Hv' & Ht). inversion Hv'; subst. by rewrite Ht.
  - split; [discriminate | intros (v' & Hv' & _); discriminate].
Qed.

Lemma collidelist'_caller (cl : option (list string)) :
  collidelist' cl = match cl with Some l => l | None => [] end.
Proof. by destruct cl. Qed.

End generate_name_more_facts.

(** ** The probe conventions and the returned name *)

Section generate_name_conventions.
Import generatename Examples.
Context {W : Type}.
Implicit Types (cb : string -> M W pyval) (w : W).

(** C10. When [generate_name] returns a name: the name is one of the
    candidates; it is not in the list the caller passed as
    [collidelist]; the last call of the callback was for it and reported
    no collision (under [lib_collision] it returned [None] or raised
    [libvirtError], otherwise it returned a false value); the calls
    before it were made, in order, for exactly the earlier candidates
    that are not in the caller's list, and each of them reported a
    collision; and no call was made after it. *)
Theorem generate_name_returns_first_free cb (base suffix : string)
    (lib : bool) (start : Z) (sep : string) (force : bool)
    (cl : option (list string)) w (name : string) w' :
  generate_name base cb suffix lib start sep force cl w = (Ok name, w') ->
  let extra := match cl with Some l => l | None => [] end in
  let log := (generate_name base (traced cb) suffix lib start sep force cl
                (w, [])).2.2 in
  exists (k : nat) earlier o,
    (candidates base suffix start sep force !! k = Some name) /\
    (name ∉ extra) /\
    log = earlier ++ [(name, o)] /\
    (exists w0, (cb name w0).1 = o) /\
    (if lib then o = Ok VNone \/ exists msg, o = Raise (libvirtError msg)
     else exists v, o = Ok v /\ truthy v = false) /\
    Forall (fun co => if lib then exists r, co.2 = Ok r /\ r <> VNone
                      else exists v, co.2 = Ok v /\ truthy v = true)
           earlier /\
    earlier.*1 = filter (fun c => c ∉ extra)
                   (take k (candidates base suffix start sep force)).
Proof.
  intros Hrun extra log.
  destruct (generate_name_run cb base suffix lib start sep force cl w)
    as [Hr Hcb].
  rewrite generate_name_traced in Hrun. inversion Hrun as [[Hres Hw]].
  rewrite Hres in Hr. fold log in Hr, Hcb.
  rewrite collidelist'_caller in Hr. fold extra in Hr.
  apply loop_run_first_free in Hr
    as (k & earlier & o & Hk & Hn & Hlog & Hfree & Hall & Hpre).
  exists k, earlier, o. rewrite Hlog in Hcb.
  split; [exact Hk|]. split; [exact Hn|]. split; [exact Hlog|].
  split; [|split; [|split]].
  - apply Forall_app in Hcb as [_ Hlast]. by apply Forall_inv in Hlast.
  - by apply no_collision_reported_iff.
  - eapply Forall_impl; [exact Hall|]. intros co Hco.
    by apply collision_reported_iff.
  - exact Hpre.
Qed.

(** C5 (amended). Under the signalling convention ([lib_collision]
    true), for every call the callback gets during a run: when it
    returned a result other than [None], the candidate counts as taken,
    it is not the name returned, and if it was the last call the run
    ends with the [ValueError] of the exhausted range; when it raised a
    [libvirtError], of whatever kind, or returned [None], the candidate
    counts as free and is the name returned; when it raised an exception
    that is no [libvirtError], that exception is what [generate_name]
    raises. No call is made for a name of the caller's [collidelist]. *)
Theorem libvirt_convention cb (base suffix : string) (start : Z)
    (sep : string) (force : bool) (cl : option (list string)) w (c : string)
    (o : result pyval) :
  let extra := match cl with Some l => l | None => [] end in
  let result := (generate_name base cb suffix true start sep force cl w).1 in
  let log := (generate_name base (traced cb) suffix true start sep force cl
                (w, [])).2.2 in
  (c, o) ∈ log ->
  (c ∉ extra) /\
  (exists w0, (cb c w0).1 = o) /\
  (forall r, o = Ok r -> r <> VNone ->
     result <> Ok c /\
     (forall earlier, log = earlier ++ [(c, o)] ->
        result = Raise (ValueError "Name generation range exceeded."))) /\
  (o = Ok VNone \/ (exists msg, o = Raise (libvirtError msg)) ->
     result = Ok c) /\
  (forall e, o = Raise e -> is_libvirtError e = false -> result = Raise e).
Proof.
  intros extra result log Hel.
  destruct (generate_name_run cb base suffix true start sep force cl w)
    as [Hr Hcb]. fold log in Hr, Hcb.
  rewrite collidelist'_caller in Hr. fold extra in Hr.
  assert (Hres : result
                 = (generate_name base (traced cb) suffix true start sep
                      force cl (w, [])).1).
  { unfold result. by rewrite generate_name_traced. }
  rewrite <- Hres in Hr.
  split; [|split; [|split; [|split]]].
  - apply loop_run_not_listed in Hr as [Hall _].
    rewrite Forall_forall in Hall. by apply (Hall (c, o)).
  - rewrite Forall_forall in Hcb. by apply (Hcb (c, o)).
  - intros r -> Hnone.
    assert (Hcoll : collision_reported true (Ok r) = true).
    { apply collision_reported_iff. eauto. }
    split.
    + intros Hok. rewrite Hok in Hr.
      apply loop_run_first_free in Hr
        as (k & earlier & o' & Hk & _ & Hlog & Hfree & _ & Hpre).
      rewrite Hlog in Hel. apply elem_of_app in Hel as [Hel|Hel].
      * assert (Hc : c ∈ earlier.*1).
        { apply list_elem_of_fmap. by exists (c, Ok r). }
        rewrite Hpre in Hc. apply list_elem_of_filter in Hc as [_ Hc].
        by apply (NoDup_not_in_take _ _ _
                    (candidates_distinct base suffix start sep force) Hk).
      * apply list_elem_of_singleton in Hel. inversion Hel; subst.
        unfold collision_reported, no_collision_reported in *.
        destruct (collide_outcome true (Ok r)) as [v|e]; [|done].
        by destruct (truthy v).
    + intros earlier Hlog. destruct result as [name|e] eqn:Hresult.
      * apply loop_run_first_free in Hr
          as (k & earlier' & o' & _ & _ & Hlog' & Hfree & _).
        rewrite Hlog in Hlog'. apply app_inj_tail in Hlog' as [_ Heq].
        inversion Heq; subst.
        unfold collision_reported, no_collision_reported in *.
        destruct (collide_outcome true (Ok r)) as [v|e]; [|done].
        by destruct (truthy v).
      * apply loop_run_raise_cases in Hr
          as [(-> & _)|(earlier' & c' & o' & Hlog' & Hout)]; [done|].
        rewrite Hlog in Hlog'. apply app_inj_tail in Hlog' as [_ Heq].
        inversion Heq; subst. unfold collision_reported in Hcoll.
        by rewrite Hout in Hcoll.
  - intros Hfree.
    apply (loop_run_free_entry _ _ _ _ _ Hr c o Hel).
    by apply no_collision_reported_iff.
  - intros e -> He.
    apply (loop_run_propagates _ _ _ _ _ Hr c (Raise e) e Hel).
    by destruct e.
Qed.

End generate_name_conventions.

Section generate_name_conventions_instances.
Import generatename Examples.

Lemma generate_name_returns_first_free_witness :
  generate_name "foo" (lookup_in ["foo"; "foo-1"]) "" true 1 "-" false
    (Some ["foo-2"; "spare"]) tt = (Ok "foo-3", tt) /\
  exists (k : nat) earlier o,
    (candidates "foo" "" 1 "-" false !! k = Some "foo-3") /\
    ("foo-3" ∉ ["foo-2"; "spare"]) /\
    [("foo", Ok (VStr "<virDomain>")); ("foo-1", Ok (VStr "<virDomain>"));
     ("foo-3", Raise (libvirtError "Domain not found"))]
      = earlier ++ [("foo-3", o)] /\
    (exists w0, (lookup_in ["foo"; "foo-1"] "foo-3" w0).1 = o) /\
    (o = Ok VNone \/ exists msg, o = Raise (libvirtError msg)) /\
    Forall (fun co => exists r, co.2 = Ok r /\ r <> VNone) earlier /\
    earlier.*1 = filter (fun c => c ∉ ["foo-2"; "spare"])
                   (take k (candidates "foo" "" 1 "-" false)).
Proof.
  assert (Hrun : generate_name "foo" (lookup_in ["foo"; "foo-1"]) "" true 1
                   "-" false (Some ["foo-2"; "spare"]) tt
                 = (Ok "foo-3", tt)) by (vm_compute; reflexivity).
  split; [exact Hrun|].
  exact (generate_name_returns_first_free
           (lookup_in ["foo"; "foo-1"]) "foo" "" true 1 "-" false
           (Some ["foo-2"; "spare"]) tt "foo-3" tt Hrun).
Defined.

Lemma libvirt_convention_witness :
  (generate_name "foo" (lookup_in ["foo"]) "" true 1 "-" false
     (Some ["foo-1"]) tt).1 <> Ok "foo" /\
  (generate_name "foo" (lookup_in ["foo"]) "" true 1 "-" false
     (Some ["foo-1"]) tt).1 = Ok "foo-2" /\
  ("foo-2" ∉ ["foo-1"]) /\
  (generate_name "foo" broken_lookup "" true 1 "-" false None tt).1
    = Raise (OtherError "IOError" "connection reset").
Proof.
  split; [|split; [|split]].
  - assert (Hel : ("foo", Ok (VStr "<virDomain>"))
                  ∈ (generate_name "foo" (traced (lookup_in ["foo"])) "" true
                       1 "-" false (Some ["foo-1"]) (tt, [])).2.2)
      by (vm_compute; constructor).
    destruct (libvirt_convention (lookup_in ["foo"]) "foo" "" 1 "-" false
                (Some ["foo-1"]) tt "foo" (Ok (VStr "<virDomain>")) Hel)
      as (_ & _ & Htaken & _).
    apply (Htaken (VStr "<virDomain>") eq_refl). discriminate.
  - assert (Hel : ("foo-2", Raise (libvirtError "Domain not found"))
                  ∈ (generate_name "foo" (traced (lookup_in ["foo"])) "" true
                       1 "-" false (Some ["foo-1"]) (tt, [])).2.2)
      by (vm_compute; do 2 constructor).
    destruct (libvirt_convention (lookup_in ["foo"]) "foo" "" 1 "-" false
                (Some ["foo-1"]) tt "foo-2"
                (Raise (libvirtError "Domain not found")) Hel)
      as (_ & _ & _ & Hfree & _).
    apply Hfree. right. by eexists.
  - assert (Hel : ("foo-2", Raise (libvirtError "Domain not found"))
                  ∈ (generate_name "foo" (traced (lookup_in ["foo"])) "" true
                       1 "-" false (Some ["foo-1"]) (tt, [])).2.2)
      by (vm_compute; do 2 constructor).
    exact (proj1 (libvirt_convention (lookup_in ["foo"]) "foo" "" 1 "-" false
                    (Some ["foo-1"]) tt "foo-2"
                    (Raise (libvirtError "Domain not found")) Hel)).
  - assert (Hel : ("foo", Raise (OtherError "IOError" "connection reset"))
                  ∈ (generate_name "foo" (traced broken_lookup) "" true
                       1 "-" false None (tt, [])).2.2)
      by (vm_compute; constructor).
    destruct (libvirt_convention broken_lookup "foo" "" 1 "-" false None tt
                "foo" (Raise (OtherError "IOError" "connection reset")) Hel)
      as (_ & _ & _ & _ & Hother).
    by apply (Hother (OtherError "IOError" "connection reset")).
Defined.

(** C5 as stated fails: a [libvirtError] that does not say the name is
    free is swallowed as well; the name is returned as if it were
    free. *)
Lemma libvirt_failure_is_swallowed :
  unreachable_lookup "foo" tt
    = (Raise (libvirtError "internal error: client socket is closed"), tt) /\
  generate_name "foo" unreachable_lookup "" true 1 "-" false None tt
    = (Ok "foo", tt) /\
  (generate_name "foo" unreachable_lookup "" true 1 "-" false None tt).1
    <> Raise (libvirtError "internal error: client socket is closed").
Proof.
  assert (Hrun : generate_name "foo" unreachable_lookup "" true 1 "-" false
                   None tt = (Ok "foo", tt)) by (vm_compute; reflexivity).
  split; [reflexivity|]. split; [exact Hrun|]. rewrite Hrun. discriminate.
Qed.

End generate_name_conventions_instances.

Section generate_name_more.
Import generatename Examples.
Context {W : Type}.
Implicit Types (cb : string -> M W pyval) (w : W).

(** X1. [libvirt_collision] without a value returns [False] and does not
    call the callback; with a value it never raises a [libvirtError],
    returns [True] exactly when the callback returned something other
    than [None], and leaves the world as the callback left it. *)
Theorem libvirt_collision_spec cb (v : string) w
    (log : list (string * result pyval)) :
  libvirt_collision (traced cb) None (w, log) = (Ok false, (w, log)) /\
  (forall msg, (libvirt_collision cb (Some v) w).1
                 <> Raise (libvirtError msg)) /\
  ((libvirt_collision cb (Some v) w).1 = Ok true <->
     exists r, (cb v w).1 = Ok r /\ r <> VNone) /\
  (libvirt_collision cb (Some v) w).2 = (cb v w).2.
Proof.
  split; [reflexivity|].
  unfold libvirt_collision, except_libvirtError, bind, ret.
  destruct (cb v w) as [[r|e] w1]; cbn [fst snd].
  - split; [discriminate|]. split; [|reflexivity]. split.
    + intros Hr. exists r. split; [done|]. intros ->. discriminate.
    + intros (r' & Hr' & Hnone). inversion Hr'; subst. by destruct r'.
  - destruct e; cbn [fst snd]; (split; [discriminate|]);
      (split; [|reflexivity]);
      (split; [discriminate | intros (r & Hr & _); discriminate]).
Qed.

(** X2. No call of the callback is made for a name of the list the
    caller passed as [collidelist], and no name of that list is ever
    returned. *)
Theorem generate_name_skips_collidelist cb (base suffix : string)
    (lib : bool) (start : Z) (sep : string) (force : bool)
    (l : list string) w :
  let run := generate_name base (traced cb) suffix lib start sep force
               (Some l) (w, []) in
  Forall (fun co => co.1 ∉ l) run.2.2 /\
  (forall name,
     (generate_name base cb suffix lib start sep force (Some l) w).1
       = Ok name ->
     name ∉ l).
Proof.
  intros run. rewrite generate_name_traced. fold run. cbn [fst].
  destruct (generate_name_run cb base suffix lib start sep force (Some l) w)
    as [Hr _]. fold run in Hr.
  rewrite collidelist'_caller in Hr.
  by apply loop_run_not_listed in Hr.
Qed.

(** X3. The calls of the callback go through the candidates that are
    not in [collidelist], in their order and without repeating a
    position; so there are at most 100001 calls, and at most 100000
    when [force_num] is set. *)
Theorem generate_name_calls_bounded cb (base suffix : string)
    (lib : bool) (start : Z) (sep : string) (force : bool) cl w :
  let run := generate_name base (traced cb) suffix lib start sep force cl
               (w, []) in
  run.2.2.*1 `prefix_of`
    filter (fun c => c ∉ collidelist' cl)
      (candidates base suffix start sep force) /\
  (length run.2.2 <= Z.to_nat (if force then 100000 else 100001))%nat.
Proof.
  intros run.
  destruct (generate_name_run cb base suffix lib start sep force cl w)
    as [Hr _]. fold run in Hr.
  apply loop_run_prefix in Hr. split; [exact Hr|].
  apply prefix_length in Hr. rewrite length_fmap in Hr.
  etrans; [exact Hr|]. etrans; [apply length_filter|].
  by rewrite length_candidates.
Qed.

(** X4. A returned name is [base + suffix], which needs [force_num] to
    be false, or [base + sep + N + suffix] for an N from [start_num] to
    [start_num + 99999]. *)
Theorem generate_name_result_shape cb (base suffix : string)
    (lib : bool) (start : Z) (sep : string) (force : bool) cl w :
  match (generate_name base cb suffix lib start sep force cl w).1 with
  | Ok name =>
      force = false /\ name = base +:+ suffix \/
      exists k : Z, 0 <= k < 100000 /\
        name = base +:+ sep +:+ fmt_d (start + k) +:+ suffix
  | Raise _ => True
  end.
Proof.
  rewrite generate_name_traced. cbn [fst].
  destruct (generate_name_run cb base suffix lib start sep force cl w)
    as [Hr _].
  destruct (generate_name _ _ _ _ _ _ _ _ _).1 as [name|e]; [|done].
  apply loop_run_first_free in Hr as (k & _ & _ & Hk & _).
  apply elem_of_candidates. by eapply list_elem_of_lookup_2.
Qed.

(** X7. The candidates are pairwise different: no name is tried twice. *)
Theorem candidates_NoDup (base suffix : string) (start : Z) (sep : string)
    (force : bool) :
  NoDup (candidates base suffix start sep force).
Proof.
  unfold candidates. apply NoDup_fmap_2_strong; [|apply NoDup_numrange].
  intros i j _ _. apply tryname_of_inj.
Qed.

(** X5. When the first candidate ([base + suffix], or
    [base + sep + start_num + suffix] under [force_num]) is not in
    [collidelist] and the callback reports no collision for it, it is
    returned after that single call. *)
Theorem generate_name_first_candidate cb (base suffix : string)
    (lib : bool) (start : Z) (sep : string) (force : bool) cl w :
  let first := if force then base +:+ sep +:+ fmt_d start +:+ suffix
               else base +:+ suffix in
  first ∉ collidelist' cl ->
  no_collision_reported lib (cb first w).1 = true ->
  generate_name base cb suffix lib start sep force cl w
    = (Ok first, (cb first w).2) /\
  (generate_name base (traced cb) suffix lib start sep force cl (w, [])).2.2
    = [(first, (cb first w).1)].
Proof.
  intros first Hfirst Hfree.
  destruct (numrange_head start force) as [rest Hnum].
  assert (Hname : tryname_of base suffix sep
                    (if force then Some start else None) = first).
  { unfold first. destruct force;
      [apply tryname_of_Some | apply tryname_of_None]. }
  unfold no_collision_reported in Hfree.
  destruct (collide_outcome lib (cb first w).1) as [v|e] eqn:Hout; [|done].
  apply negb_true_iff in Hfree.
  unfold generate_name. rewrite Hnum. cbn [generate_loop]. unfold bind.
  rewrite Hname, !collide_probed by done.
  rewrite traced_run. cbn [fst snd]. rewrite Hout, Hfree. cbn [negb].
  split; reflexivity.
Qed.

(** X6. Under the boolean convention ([lib_collision] false) the answer
    of the callback is taken as it is, and every exception it raises, a
    [libvirtError] too, is the exception [generate_name] raises. *)
Theorem boolean_convention cb cl (n : string) w :
  n ∉ collidelist' cl ->
  collide cb false cl n n w = cb n w /\
  (forall (base suffix : string) (start : Z) (sep : string) (force : bool)
          (c : string) e,
     let run := generate_name base (traced cb) suffix false start sep force
                  cl (w, []) in
     (c, Raise e) ∈ run.2.2 ->
     (generate_name base cb suffix false start sep force cl w).1 = Raise e).
Proof.
  intros Hn. split.
  - rewrite collide_probed by done. cbn [collide_outcome].
    by destruct (cb n w).
  - intros base suffix start sep force c e run Hel.
    destruct (generate_name_run cb base suffix false start sep force cl w)
      as [Hr _].
    rewrite generate_name_traced. cbn [fst].
    by apply (loop_run_propagates _ _ _ _ _ Hr c (Raise e) e Hel).
Qed.

(** X8. With a callback that reports a collision at every call,
    [generate_name] raises the [ValueError] after one call for each
    candidate that is not in [collidelist]: 100000 calls under
    [force_num] when [collidelist] is empty. *)
Theorem generate_name_exhausts cb (base suffix : string)
    (lib : bool) (start : Z) (sep : string) (force : bool) cl w :
  (forall n w0, collision_reported lib (cb n w0).1 = true) ->
  let run := generate_name base (traced cb) suffix lib start sep force cl
               (w, []) in
  (generate_name base cb suffix lib start sep force cl w).1
    = Raise (ValueError "Name generation range exceeded.") /\
  run.2.2.*1 = filter (fun c => c ∉ collidelist' cl)
                 (candidates base suffix start sep force) /\
  (collidelist' cl = [] ->
   length run.2.2 = Z.to_nat (if force then 100000 else 100001)).
Proof.
  intros Hcoll run.
  destruct (generate_name_all_collide cb base suffix lib start sep force
              cl w Hcoll) as [Hr Htr].
  fold run in Htr. split; [exact Hr|]. split; [exact Htr|].
  intros Hcl. rewrite <- (length_fmap fst), Htr, Hcl, filter_not_in_nil.
  apply length_candidates.
Qed.

(** X9. When the callback raises nothing that [collide] passes on
    (nothing at all, or only [libvirtError] under [lib_collision]), the
    only exception of [generate_name] is the [ValueError] of the
    exhausted range, and it is raised only after every candidate that is
    not in the caller's [collidelist] was tried and reported as
    colliding. *)
Theorem generate_name_raises_only_when_exhausted cb (base suffix : string)
    (lib : bool) (start : Z) (sep : string) (force : bool)
    (cl : option (list string)) w (e : pyexn) :
  (forall n w0 e0, (cb n w0).1 = Raise e0 ->
                   lib = true /\ is_libvirtError e0 = true) ->
  (generate_name base cb suffix lib start sep force cl w).1 = Raise e ->
  let extra := match cl with Some l => l | None => [] end in
  let log := (generate_name base (traced cb) suffix lib start sep force cl
                (w, [])).2.2 in
  e = ValueError "Name generation range exceeded." /\
  log.*1 = filter (fun c => c ∉ extra)
             (candidates base suffix start sep force) /\
  Forall (fun co => if lib then exists r, co.2 = Ok r /\ r <> VNone
                    else exists v, co.2 = Ok v /\ truthy v = true) log.
Proof.
  intros Hcb Hraise extra log.
  rewrite generate_name_traced in Hraise. cbn [fst] in Hraise.
  destruct (generate_name_run cb base suffix lib start sep force cl w)
    as [Hr Htr]. fold log in Hr, Htr.
  rewrite collidelist'_caller in Hr. fold extra in Hr.
  rewrite Hraise in Hr.
  apply loop_run_raise_cases in Hr
    as [(He & Hnames & Hall)|(earlier & c & o & Hlog & Hout)].
  - split; [exact He|]. split; [exact Hnames|].
    eapply Forall_impl; [exact Hall|]. intros co Hco.
    by apply collision_reported_iff.
  - exfalso. rewrite Hlog in Htr. apply Forall_app in Htr as [_ Hlast].
    apply Forall_inv in Hlast as [w0 Hw0]. cbn [fst snd] in Hw0.
    unfold collide_outcome in Hout.
    destruct lib, o as [v|e']; try discriminate.
    + destruct (Hcb _ _ _ Hw0) as [_ He']. by destruct e'.
    + by destruct (Hcb _ _ _ Hw0).
Qed.

End generate_name_more.

Section generate_name_more_instances.
Import generatename Examples.

Lemma generate_name_first_candidate_witness :
  generate_name "vm" (lookup_in ["vm"]) ".img" true 7 "_" true
    (Some ["vm_8.img"]) tt
    = (Ok "vm_7.img", tt) /\
  (generate_name "vm" (traced (lookup_in ["vm"])) ".img" true 7 "_" true
     (Some ["vm_8.img"]) (tt, [])).2.2
    = [("vm_7.img", Raise (libvirtError "Domain not found"))].
Proof.
  apply (generate_name_first_candidate (lookup_in ["vm"]) "vm" ".img" true 7
           "_" true (Some ["vm_8.img"]) tt).
  - vm_compute. intros Hin. apply list_elem_of_singleton in Hin.
    discriminate.
  - vm_compute. reflexivity.
Defined.

Lemma boolean_convention_witness :
  collide broken_lookup false None "foo" "foo" tt = broken_lookup "foo" tt /\
  (generate_name "foo" (lookup_in []) "" false 1 "-" false None tt).1
    = Raise (libvirtError "Domain not found").
Proof.
  split.
  - apply (proj1 (boolean_convention broken_lookup None "foo" tt
                    (not_elem_of_nil _))).
  - apply (proj2 (boolean_convention (lookup_in []) None "foo" tt
                    (not_elem_of_nil _))
             "foo" "" 1 "-" false "foo" (libvirtError "Domain not found")).
    vm_compute. constructor.
Defined.

Lemma generate_name_exhausts_witness :
  let run := generate_name "foo" (traced always_collides) ".img" false 0 "-"
               true (Some []) (tt, []) in
  (generate_name "foo" always_collides ".img" false 0 "-" true (Some []) tt).1
    = Raise (ValueError "Name generation range exceeded.") /\
  run.2.2.*1 = filter (fun c => c ∉ collidelist' (Some []))
                 (candidates "foo" ".img" 0 "-" true) /\
  (collidelist' (Some []) = [] ->
   length run.2.2 = Z.to_nat (if true then 100000 else 100001)).
Proof.
  apply (generate_name_exhausts always_collides "foo" ".img" false 0 "-"
           true (Some []) tt).
  intros n w0. reflexivity.
Defined.

Lemma generate_name_raises_only_when_exhausted_witness :
  let log := (generate_name "foo" (traced always_collides) ".img" false 3
                "-" true (Some ["foo-4.img"]) (tt, [])).2.2 in
  (generate_name "foo" always_collides ".img" false 3 "-" true
     (Some ["foo-4.img"]) tt).1
    = Raise (ValueError "Name generation range exceeded.") /\
  ValueError "Name generation range exceeded."
    = ValueError "Name generation range exceeded." /\
  log.*1 = filter (fun c => c ∉ ["foo-4.img"])
             (candidates "foo" ".img" 3 "-" true) /\
  Forall (fun co => exists v, co.2 = Ok v /\ truthy v = true) log.
Proof.
  intros log.
  destruct (generate_name_all_collide always_collides "foo" ".img" false 3
              "-" true (Some ["foo-4.img"]) tt) as [Hraise _]; [done|].
  split; [exact Hraise|].
  apply (generate_name_raises_only_when_exhausted always_collides "foo"
           ".img" false 3 "-" true (Some ["foo-4.img"]) tt
           (ValueError "Name generation range exceeded.")).
  - intros n w0 e0 Hcb. discriminate.
  - exact Hraise.
Defined.

Lemma generate_name_skips_collidelist_witness :
  let run := generate_name "foo" (traced (lookup_in ["foo"])) "" true 1 "-"
               false (Some ["foo-1"; "foo-2"]) (tt, []) in
  run.2.2 = [("foo", Ok (VStr "<virDomain>"));
             ("foo-3", Raise (libvirtError "Domain not found"))] /\
  Forall (fun co => co.1 ∉ ["foo-1"; "foo-2"]) run.2.2 /\
  ("foo-3" ∉ ["foo-1"; "foo-2"]).
Proof.
  intros run.
  destruct (generate_name_skips_collidelist (lookup_in ["foo"]) "foo" "" true
              1 "-" false ["foo-1"; "foo-2"] tt) as [Hlog Hname].
  split; [vm_compute; reflexivity|]. split; [exact Hlog|].
  apply Hname. vm_compute. reflexivity.
Defined.

End generate_name_more_instances.

(** * Further properties of the installer *)

Section boot_order_more.
Import Installer Examples.
Context {Vol : Type}.
Implicit Types (self : Installer Vol) (guest : Guest).

(** X10. [_build_boot_order] raises exactly what [_get_bootdev] raises,
    and its result is the empty list exactly when [_get_bootdev]
    returned [None]. *)
Theorem build_boot_order_none_and_errors self (isinstall : bool) guest :
  (forall e, _build_boot_order self isinstall guest = Raise e <->
             _get_bootdev (cls self) isinstall guest = Raise e) /\
  (_build_boot_order self isinstall guest = Ok [] <->
   _get_bootdev (cls self) isinstall guest = Ok None).
Proof.
  unfold _build_boot_order.
  destruct (_get_bootdev (cls self) isinstall guest) as [[p|]|e'];
    cbn [result_bind].
  - split; [intros e; split; discriminate|].
    rewrite boot_order_scan_spec.
    split; [|discriminate].
    by destruct (has_disk _ && negb (bool_decide (_ ∈ [p]))).
  - split; [intros e; split; discriminate | done].
  - split; [intros e; split; intros Heq; by inversion Heq|].
    split; discriminate.
Qed.

(** X11. A boot order lists no device twice, has at most two entries,
    each of them the primary device or the hard disk, and, when it is
    not empty, lists the hard disk whenever the guest has a device of
    kind disk. *)
Theorem build_boot_order_invariants self (isinstall : bool) guest
    (order : list BootDevice) :
  _build_boot_order self isinstall guest = Ok order ->
  NoDup order /\
  (length order <= 2)%nat /\
  (forall d, d ∈ order ->
     _get_bootdev (cls self) isinstall guest = Ok (Some d) \/
     d = BOOT_DEVICE_HARDDISK) /\
  (order <> [] -> has_disk (get_devices_disk guest) = true ->
   BOOT_DEVICE_HARDDISK ∈ order).
Proof.
  unfold _build_boot_order.
  destruct (_get_bootdev (cls self) isinstall guest) as [[p|]|e'];
    cbn [result_bind]; intros Heq; inversion Heq as [Horder]; clear Heq.
  - rewrite boot_order_scan_spec.
    destruct (has_disk (get_devices_disk guest)), p; cbn [andb];
      try match goal with
          | |- context [bool_decide ?P] =>
              let b := eval vm_compute in (bool_decide P) in
              change (bool_decide P) with b
          end; cbn;
      (split; [by apply (bool_decide_unpack _)|]);
      (split; [lia|]);
      (split;
        [intros d Hd;
         repeat (apply elem_of_cons in Hd as [->|Hd]; [by auto|]);
         by apply elem_of_nil in Hd
        |intros _ Hdisk; try discriminate;
         by apply (bool_decide_unpack _)]).
  - split; [constructor|]. split; [cbn; lia|].
    split; [intros d Hd; by apply elem_of_nil in Hd | done].
Qed.

(** X12. The boot orders of the classes: a container boots from the
    hard disk alone; a live CD from the cdrom, then the hard disk if
    the guest has a disk; PXE during the install from the network, then
    the hard disk if there is a disk, and after the install from the
    hard disk alone if there is a disk, else from the network; the base
    class has no boot order and raises [NotImplementedError]. *)
Theorem class_boot_orders self (isinstall : bool) guest :
  let disk_next := if has_disk (get_devices_disk guest)
                   then [BOOT_DEVICE_HARDDISK] else [] in
  (cls self = ContainerInstaller ->
   _build_boot_order self isinstall guest = Ok [BOOT_DEVICE_HARDDISK]) /\
  (cls self = LiveCDInstaller ->
   _build_boot_order self isinstall guest
     = Ok (BOOT_DEVICE_CDROM :: disk_next)) /\
  (cls self = PXEInstaller ->
   _build_boot_order self isinstall guest
     = Ok (if isinstall then BOOT_DEVICE_NETWORK :: disk_next
           else if has_disk (get_devices_disk guest)
                then [BOOT_DEVICE_HARDDISK] else [BOOT_DEVICE_NETWORK])) /\
  (cls self = Installer_class ->
   _build_boot_order self isinstall guest
     = Raise (NotImplementedError "Must be implemented in subclass")).
Proof.
  intros disk_next. unfold _build_boot_order, disk_next.
  split; [|split; [|split]]; intros ->; cbn [_get_bootdev ContainerInstaller
    LiveCDInstaller PXEInstaller Installer_class result_bind];
    rewrite ?boot_order_scan_spec, ?filter_disk_nil, ?negb_involutive.
  - by destruct (has_disk (get_devices_disk guest)).
  - by destruct (has_disk (get_devices_disk guest)).
  - by destruct isinstall, (has_disk (get_devices_disk guest)).
  - reflexivity.
Qed.

(** X13. [ImportInstaller] boots from the device of the first disk, then
    from the hard disk if that device is a cdrom or a floppy and some
    later device is of kind disk. *)
Theorem import_boot_order self (isinstall : bool) guest :
  cls self = ImportInstaller ->
  _build_boot_order self isinstall guest
    = Ok match get_devices_disk guest with
         | [] => [BOOT_DEVICE_HARDDISK]
         | disk0 :: rest =>
             match device disk0 with
             | DEVICE_CDROM =>
                 BOOT_DEVICE_CDROM
                   :: (if has_disk rest then [BOOT_DEVICE_HARDDISK] else [])
             | DEVICE_FLOPPY =>
                 BOOT_DEVICE_FLOPPY
                   :: (if has_disk rest then [BOOT_DEVICE_HARDDISK] else [])
             | _ => [BOOT_DEVICE_HARDDISK]
             end
         end.
Proof.
  intros Hcls. unfold _build_boot_order. rewrite Hcls.
  cbn [_get_bootdev ImportInstaller].
  destruct (get_devices_disk guest) as [|disk0 rest]; [reflexivity|].
  cbn [result_bind]. rewrite boot_order_scan_spec.
  unfold _disk_to_bootdev, has_disk. cbn [existsb].
  destruct (device disk0), (existsb _ rest); reflexivity.
Qed.

End boot_order_more.

Section boot_order_more_instances.
Import Installer Examples.

Lemma build_boot_order_invariants_witness :
  NoDup [BOOT_DEVICE_CDROM; BOOT_DEVICE_HARDDISK] /\
  (length [BOOT_DEVICE_CDROM; BOOT_DEVICE_HARDDISK] <= 2)%nat /\
  (forall d, d ∈ [BOOT_DEVICE_CDROM; BOOT_DEVICE_HARDDISK] ->
     _get_bootdev
       (cls (new_installer LiveCDInstaller kvm_bootconfig false [] []))
       true (guest_with [DEVICE_FLOPPY; DEVICE_DISK])
       = Ok (Some d) \/
     d = BOOT_DEVICE_HARDDISK) /\
  ([BOOT_DEVICE_CDROM; BOOT_DEVICE_HARDDISK] <> [] ->
   has_disk (get_devices_disk (guest_with [DEVICE_FLOPPY; DEVICE_DISK]))
     = true ->
   BOOT_DEVICE_HARDDISK ∈ [BOOT_DEVICE_CDROM; BOOT_DEVICE_HARDDISK]).
Proof.
  apply (build_boot_order_invariants
           (new_installer LiveCDInstaller kvm_bootconfig false [] [])
           true (guest_with [DEVICE_FLOPPY; DEVICE_DISK])).
  reflexivity.
Defined.

Lemma class_boot_orders_witness :
  _build_boot_order (new_installer ContainerInstaller kvm_bootconfig false [] [])
    true (guest_with [DEVICE_DISK]) = Ok [BOOT_DEVICE_HARDDISK] /\
  _build_boot_order (new_installer LiveCDInstaller kvm_bootconfig false [] [])
    false (guest_with [DEVICE_DISK])
    = Ok [BOOT_DEVICE_CDROM; BOOT_DEVICE_HARDDISK] /\
  _build_boot_order (new_installer PXEInstaller kvm_bootconfig false [] [])
    false (guest_with [DEVICE_CDROM; DEVICE_DISK])
    = Ok [BOOT_DEVICE_HARDDISK] /\
  _build_boot_order (new_installer Installer_class kvm_bootconfig false [] [])
    false (guest_with [])
    = Raise (NotImplementedError "Must be implemented in subclass").
Proof.
  split; [|split; [|split]].
  - apply (proj1 (class_boot_orders
                    (new_installer ContainerInstaller kvm_bootconfig false
                       [] [])
                    true (guest_with [DEVICE_DISK])) eq_refl).
  - apply (proj1 (proj2 (class_boot_orders
                           (new_installer LiveCDInstaller kvm_bootconfig
                              false [] [])
                           false (guest_with [DEVICE_DISK]))) eq_refl).
  - apply (proj1 (proj2 (proj2 (class_boot_orders
                                  (new_installer PXEInstaller kvm_bootconfig
                                     false [] [])
                                  false
                                  (guest_with [DEVICE_CDROM; DEVICE_DISK]))))
             eq_refl).
  - apply (proj2 (proj2 (proj2 (class_boot_orders
                                  (new_installer Installer_class
                                     kvm_bootconfig false [] [])
                                  false (guest_with []))))
             eq_refl).
Defined.

Lemma import_boot_order_witness :
  _build_boot_order (new_installer ImportInstaller kvm_bootconfig false [] [])
    false (guest_with [DEVICE_FLOPPY; DEVICE_CDROM; DEVICE_DISK])
    = Ok [BOOT_DEVICE_FLOPPY; BOOT_DEVICE_HARDDISK].
Proof.
  apply (import_boot_order
           (new_installer ImportInstaller kvm_bootconfig false [] [])
           false (guest_with [DEVICE_FLOPPY; DEVICE_CDROM; DEVICE_DISK])
           eq_refl).
Defined.

End boot_order_more_instances.

Section xml_config_more.
Import Installer Examples.
Context {Vol X : Type}.
Implicit Types (self : Installer Vol) (guest : Guest)
  (helper : Guest -> bool -> OSXML -> OSXML -> X).

(** X14. A container, live CD or import installer has no install
    phase: asked for the install configuration, [_get_xml_config]
    returns [None] without resolving a boot device, whereas for the
    post-install phase it hands a built configuration to the serializer
    and returns the result. A PXE installer does so for both phases. *)
Theorem get_xml_config_install_phase helper self guest :
  (cls self = ContainerInstaller \/ cls self = LiveCDInstaller \/
   cls self = ImportInstaller ->
   _get_xml_config helper self guest true = Ok None /\
   exists cfg,
     _get_xml_config helper self guest false
       = Ok (Some (helper guest false cfg (bootconfig self)))) /\
  (cls self = PXEInstaller ->
   forall isinstall : bool,
   exists cfg,
     _get_xml_config helper self guest isinstall
       = Ok (Some (helper guest isinstall cfg (bootconfig self)))).
Proof.
  split.
  - intros Hcls. unfold _get_xml_config, has_install_phase, _build_boot_order.
    destruct Hcls as [->|[->| ->]];
      cbn [_has_install_phase _get_bootdev ContainerInstaller LiveCDInstaller
           ImportInstaller andb negb result_bind];
      (split; [reflexivity|]);
      try (destruct (get_devices_disk guest) as [|disk0 rest];
           cbn [result_bind]);
      eexists; reflexivity.
  - intros Hcls isinstall.
    unfold _get_xml_config, has_install_phase, _build_boot_order.
    rewrite Hcls.
    cbn [_has_install_phase _get_bootdev PXEInstaller negb result_bind].
    rewrite andb_false_r. eexists. reflexivity.
Qed.

(** X15. The base class cannot build a configuration: for either phase
    [_get_xml_config] raises the [NotImplementedError] of
    [_get_bootdev]. *)
Theorem get_xml_config_base_raises helper self guest (isinstall : bool) :
  cls self = Installer_class ->
  _get_xml_config helper self guest isinstall
    = Raise (NotImplementedError "Must be implemented in subclass").
Proof.
  intros Hcls. unfold _get_xml_config, has_install_phase, _build_boot_order.
  rewrite Hcls. cbn [_has_install_phase _get_bootdev Installer_class negb].
  rewrite andb_false_r. reflexivity.
Qed.

End xml_config_more.

Section xml_config_overrides.
Import Installer Examples.
Context {Vol : Type}.
Implicit Types (self : Installer Vol) (guest : Guest).

(** X16. The configuration built for the post-install phase has the
    kernel, initrd and kernel arguments of the installer's own
    configuration. For the install phase each of the three is replaced
    by the installer's install value when that value is neither [None]
    nor empty, independently of the other two. The remaining fields are
    those of the installer's own configuration in both phases. *)
Theorem get_xml_config_overrides self guest (isinstall : bool)
    (cfg : OSXML) :
  _get_xml_config (fun _ _ bc _ => bc) self guest isinstall
    = Ok (Some cfg) ->
  let own := bootconfig self in
  kernel cfg = (if isinstall then overridden (_install_kernel self) (kernel own)
                else kernel own) /\
  initrd cfg = (if isinstall then overridden (_install_initrd self) (initrd own)
                else initrd own) /\
  kernel_args cfg
    = (if isinstall then overridden (_install_args self) (kernel_args own)
       else kernel_args own) /\
  type cfg = type own /\ os_type cfg = os_type own /\
  machine cfg = machine own /\ arch cfg = arch own /\
  loader cfg = loader own /\ init cfg = init own.
Proof.
  unfold _get_xml_config, overridden.
  destruct (isinstall && negb (has_install_phase self)); [discriminate|].
  destruct (_build_boot_order self isinstall guest) as [order|e];
    cbn [result_bind]; [|discriminate].
  intros Hcfg. cbv zeta. inversion Hcfg as [Heq]. clear Hcfg Heq.
  unfold copy.
  destruct isinstall, (truthy_str (_install_kernel self)),
    (truthy_str (_install_initrd self)), (truthy_str (_install_args self)),
    (bool_decide (bootorder (bootconfig self) = []));
    repeat split; reflexivity.
Qed.

End xml_config_overrides.

Section xml_config_instances.
Import Installer Examples.

Lemma get_xml_config_install_phase_witness :
  _get_xml_config (fun _ _ bc _ => bootorder bc)
    (new_installer ImportInstaller kvm_bootconfig false [] [])
    (guest_with [DEVICE_CDROM; DEVICE_DISK]) true = Ok None /\
  _get_xml_config (fun _ _ bc _ => bootorder bc)
    (new_installer ImportInstaller kvm_bootconfig false [] [])
    (guest_with [DEVICE_CDROM; DEVICE_DISK]) false
    = Ok (Some [BOOT_DEVICE_CDROM; BOOT_DEVICE_HARDDISK]) /\
  _get_xml_config (fun _ _ bc _ => bootorder bc)
    (new_installer PXEInstaller kvm_bootconfig false [] [])
    (guest_with [DEVICE_CDROM; DEVICE_DISK]) true
    = Ok (Some [BOOT_DEVICE_NETWORK; BOOT_DEVICE_HARDDISK]).
Proof.
  pose proof (get_xml_config_install_phase (fun _ _ bc _ => bootorder bc)
                (new_installer ImportInstaller kvm_bootconfig false [] [])
                (guest_with [DEVICE_CDROM; DEVICE_DISK])) as [Himport _].
  destruct (Himport (or_intror (or_intror eq_refl))) as [Hnone _].
  split; [exact Hnone|]. split; reflexivity.
Defined.

Lemma get_xml_config_base_raises_witness :
  _get_xml_config (fun _ _ bc _ => bc)
    (new_installer Installer_class kvm_bootconfig false [] [])
    (guest_with [DEVICE_DISK]) true
    = Raise (NotImplementedError "Must be implemented in subclass").
Proof.
  apply (get_xml_config_base_raises (fun _ _ bc _ => bc)
           (new_installer Installer_class kvm_bootconfig false [] [])
           (guest_with [DEVICE_DISK]) true eq_refl).
Defined.

Lemma get_xml_config_overrides_witness :
  exists cfg,
    _get_xml_config (fun _ _ bc _ => bc) kernel_installer
      (guest_with [DEVICE_DISK]) true = Ok (Some cfg) /\
    kernel cfg = Some "/var/lib/libvirt/boot/vmlinuz" /\
    initrd cfg = None /\
    kernel_args cfg = Some "ks=http://example.org/ks.cfg" /\
    type cfg = Some "kvm".
Proof.
  eexists. split; [reflexivity|].
  destruct (get_xml_config_overrides kernel_installer
              (guest_with [DEVICE_DISK]) true _ eq_refl)
    as (Hk & Hi & Ha & Ht & _).
  split; [exact Hk|]. split; [exact Hi|]. split; [exact Ha | exact Ht].
Defined.

End xml_config_instances.

Section cdrom_more.
Import Installer Examples.
Context {Vol : Type}.
Implicit Types (self : Installer Vol) (enable : pyval).

(** X17. [set_cdrom] stores its argument when it equals [True] or
    [False], and [get_cdrom] then returns it; otherwise it raises the
    [ValueError] and leaves the object as it was. The two booleans are
    always stored, [None] and strings never. No attribute but [_cdrom]
    changes in either case. *)
Theorem set_cdrom_atomic enable self :
  let run := set_cdrom enable self in
  match run.1 with
  | Ok _ =>
      py_in enable [VBool true; VBool false] = true /\
      get_cdrom run.2 = enable
  | Raise e =>
      e = ValueError "Guest.cdrom must be a boolean type" /\
      py_in enable [VBool true; VBool false] = false /\
      run.2 = self
  end /\
  (forall b, (set_cdrom (VBool b) self).1 = Ok tt) /\
  (set_cdrom VNone self).1
    = Raise (ValueError "Guest.cdrom must be a boolean type") /\
  (forall s, (set_cdrom (VStr s) self).1
             = Raise (ValueError "Guest.cdrom must be a boolean type")) /\
  _location run.2 = _location self /\
  _scratchdir run.2 = _scratchdir self /\
  bootconfig run.2 = bootconfig self /\
  install_devices run.2 = install_devices self /\
  _tmpfiles run.2 = _tmpfiles self /\
  _tmpvols run.2 = _tmpvols self.
Proof.
  intros run. subst run.
  split; [|split; [by intros []|split; [reflexivity|split; [done|]]]];
    unfold set_cdrom;
    destruct (py_in enable [VBool true; VBool false]) eqn:Hin;
    cbn [negb fst snd]; by repeat split.
Qed.

End cdrom_more.

Section cleanup_more.
Import Installer Examples.
Context {W Vol : Type} (H : Host W Vol).
Implicit Types (self : Installer Vol) (w : W).

(** The object [cleanup] leaves, without the trace. *)
Lemma cleanup_object self w :
  let run := cleanup (w, self) in
  run.2.2 = match run.1 with Ok _ => cleared self | Raise _ => self end.
Proof.
  unfold cleanup, bind, on_world. cbn [fst snd].
  destruct (for_each os_unlink (_tmpfiles self) w) as [[[]|e1] w1];
    cbn [fst snd]; [|reflexivity].
  destruct (for_each _ (_tmpvols self) w1) as [[[]|e2] w2]; reflexivity.
Qed.

(** X18. A second [cleanup] right after a successful one succeeds too,
    makes no delete call and changes neither the host nor the
    object. *)
Theorem cleanup_twice self w :
  let run := cleanup (H := traced_host H) ((w, []), self) in
  run.1 = Ok tt ->
  cleanup (H := traced_host H) run.2 = (Ok tt, run.2).
Proof.
  intros run Hok. destruct (cleanup_run H self w) as [_ Hself].
  fold run in Hself. rewrite Hok in Hself.
  destruct run as [r [wl self']]. cbn [fst snd] in *. subst self'.
  reflexivity.
Qed.

(** X19. With no temp file and no temp volume tracked, [cleanup] makes
    no call on the host, succeeds and empties [install_devices]. *)
Theorem cleanup_nothing_tracked self w :
  _tmpfiles self = [] -> _tmpvols self = [] ->
  cleanup (w, self) = (Ok tt, (w, cleared self)) /\
  install_devices (cleared self) = [].
Proof.
  intros Hf Hv. split; [|reflexivity].
  unfold cleanup, bind, on_world. cbn [fst snd]. by rewrite Hf, Hv.
Qed.

(** X20. Whether it succeeds or raises, [cleanup] changes no attribute
    of the object other than the three collections. *)
Theorem cleanup_frame self w :
  let self' := (cleanup (w, self)).2.2 in
  cls self' = cls self /\ conn self' = conn self /\
  _location self' = _location self /\ _cdrom self' = _cdrom self /\
  _scratchdir self' = _scratchdir self /\
  initrd_injections self' = initrd_injections self /\
  bootconfig self' = bootconfig self /\
  _install_kernel self' = _install_kernel self /\
  _install_initrd self' = _install_initrd self /\
  _install_args self' = _install_args self.
Proof.
  intros self'. subst self'. rewrite cleanup_object.
  destruct (cleanup (w, self)).1; by repeat split.
Qed.

End cleanup_more.

Section cached_scratchdir.
Import Installer Examples.
Context {W Vol : Type} `{Host W Vol}.
Implicit Types (self : Installer Vol) (w : W)
  (required : Installer Vol -> bool).

(** X21. When no scratch directory is required, as for every class of
    this file, [get_scratchdir] returns [None] and neither consults the
    host nor changes the object. When [get_scratchdir] has returned a
    non-empty directory, that directory is cached: a further call
    returns it again without resolving it anew, and changes neither the
    host nor the object. *)
Theorem get_scratchdir_cached required self w (dir : string)
    (ws' : W * Installer Vol) :
  get_scratchdir scratchdir_required (w, self) = (Ok None, (w, self)) /\
  (get_scratchdir required (w, self) = (Ok (Some dir), ws') ->
   dir <> ""%string ->
   required ws'.2 = true ->
   _scratchdir ws'.2 = Some dir /\
   get_scratchdir required ws' = (Ok (Some dir), ws')).
Proof.
  split; [reflexivity|].
  intros Hrun Hdir Hreq.
  assert (Htruthy : truthy_str (Some dir) = true).
  { cbn. destruct dir; [done | reflexivity]. }
  assert (Hcached : _scratchdir ws'.2 = Some dir).
  { unfold get_scratchdir in Hrun. cbn [fst snd] in Hrun.
    destruct (required self); cbn [negb] in Hrun; [|discriminate].
    destruct (truthy_str (_scratchdir self)); cbn [negb] in Hrun.
    - by inversion Hrun.
    - destruct (_get_scratchdir self w) as [[scratch|e] w1];
        [|discriminate].
      by inversion Hrun. }
  split; [exact Hcached|].
  unfold get_scratchdir. rewrite Hreq, Hcached, Htruthy. cbn [negb].
  by destruct ws'.
Qed.

End cached_scratchdir.

Section prepare_facts.
Import Installer Examples.
Context {W Vol Meter : Type} `{Host W Vol}.
Implicit Types (self : Installer Vol) (w : W) (guest : Guest)
  (meter : Meter)
  (hook : Guest -> Meter -> M (W * Installer Vol) unit).

(** X22. [prepare] first runs [cleanup]. When [cleanup] raises,
    [prepare] ends as [cleanup] did and the subclass hook is not run;
    otherwise the hook runs on the host as [cleanup] left it and on the
    object with its three collections emptied. With the hook of the
    base class, [prepare] is [cleanup]. *)
Theorem prepare_cleans_first hook guest meter self w :
  match (cleanup (w, self)).1 with
  | Raise e => prepare hook guest meter (w, self) = cleanup (w, self)
  | Ok _ =>
      prepare hook guest meter (w, self)
        = hook guest meter ((cleanup (w, self)).2.1, cleared self)
  end /\
  prepare _prepare guest meter (w, self) = cleanup (w, self).
Proof.
  pose proof (cleanup_object _ self w) as Hobj. cbv zeta in Hobj.
  unfold prepare, _prepare, bind, ret.
  destruct (cleanup (w, self)) as [[[]|e] [w' self']];
    cbn [fst snd] in *; subst self'; split; reflexivity.
Qed.

End prepare_facts.

Section installer_more_instances.
Import Installer Examples.

Lemma cleanup_twice_witness :
  let self := new_installer PXEInstaller kvm_bootconfig false
                ["/tmp/b.img"] ["vol0"] in
  let run := cleanup (H := traced_host World_host)
               ((linux_host, []), self) in
  run.1 = Ok tt /\
  cleanup (H := traced_host World_host) run.2 = (Ok tt, run.2).
Proof.
  intros self run.
  assert (Hok : run.1 = Ok tt) by (vm_compute; reflexivity).
  split; [exact Hok|].
  exact (cleanup_twice World_host self linux_host Hok).
Defined.

Lemma cleanup_nothing_tracked_witness :
  let self := new_installer ImportInstaller kvm_bootconfig true [] [] in
  cleanup (linux_host, self) = (Ok tt, (linux_host, cleared self)) /\
  install_devices (cleared self) = [].
Proof.
  intros self.
  exact (cleanup_nothing_tracked World_host self linux_host eq_refl eq_refl).
Defined.

Lemma get_scratchdir_cached_witness :
  let self := new_installer PXEInstaller kvm_bootconfig false [] [] in
  let ws' := (with_dirs linux_host
                (dirs linux_host ++ [("/home/user/.virtinst/boot", true)]),
              set__scratchdir self (Some "/home/user/.virtinst/boot")) in
  get_scratchdir (fun _ => true) (linux_host, self)
    = (Ok (Some "/home/user/.virtinst/boot"), ws') /\
  _scratchdir ws'.2 = Some "/home/user/.virtinst/boot" /\
  get_scratchdir (fun _ => true) ws'
    = (Ok (Some "/home/user/.virtinst/boot"), ws').
Proof.
  intros self ws'.
  assert (Hrun : get_scratchdir (fun _ => true) (linux_host, self)
                 = (Ok (Some "/home/user/.virtinst/boot"), ws'))
    by (vm_compute; reflexivity).
  split; [exact Hrun|].
  apply (proj2 (get_scratchdir_cached (fun _ => true) self linux_host
                  "/home/user/.virtinst/boot" ws') Hrun);
    [discriminate | reflexivity].
Defined.

End installer_more_instances.
